(** * Educational DSA / ECDSA engine: a shallow embedding of [backend/app.py]

    The development follows the layout of the Python module:

    - [Py]      : the fragment of the Python runtime the module relies on
                  (exceptions, [%], three-argument [pow], [str], [hex], [bin]);
    - [Sha256]  : [hashlib.sha256], as used by [hash_message];
    - arithmetic utilities ([extended_gcd], [mod_inverse], [pow_mod],
      [hash_message]);
    - the DSA engine ([dsa_educational_sign], [dsa_educational_verify]);
    - the class [EllipticCurve] ([is_on_curve], [point_add], [scalar_multiply]);
    - the ECDSA engine ([ecdsa_educational_sign], [ecdsa_educational_verify]);
    - the Flask routes that wrap the four engine operations;
    - the vocabulary of the properties, and the properties themselves.

    Python integers are arbitrary-precision and are modelled by [Z]; Python's
    floor division and modulo coincide with [Z.div] and [Z.modulo] whenever
    the divisor is not zero.  The recursion depth of the interpreter is taken
    to be unbounded. *)

From Stdlib Require Import ZArith Znumtheory Zcong List String Ascii Bool Lia.
From Stdlib Require Import Wellfounded Morphisms Setoid.
From Stdlib Require DecimalString HexadecimalString.
From Equations Require Import Equations.
Import ListNotations.

Local Open Scope string_scope.
Local Open Scope Z_scope.

(* ===================================================================== *)
(** * The Python runtime fragment                                         *)
(* ===================================================================== *)

Module Py.

(** Exceptions the module can raise, each with the text [str(e)] shows. *)
Inductive exn : Type :=
| ValueError (msg : string)
| ZeroDivisionError (msg : string)
| TypeError (msg : string).

Definition str_exn (e : exn) : string :=
  match e with
  | ValueError msg => msg
  | ZeroDivisionError msg => msg
  | TypeError msg => msg
  end.

(** A computation either returns a value or raises. *)
Inductive res (A : Type) : Type :=
| Ok (a : A)
| Raise (e : exn).
Arguments Ok {A} a.
Arguments Raise {A} e.

Definition bind {A B : Type} (m : res A) (f : A -> res B) : res B :=
  match m with
  | Ok a => f a
  | Raise e => Raise e
  end.

(** [a % m] *)
Definition mod_ (a m : Z) : res Z :=
  if m =? 0 then Raise (ZeroDivisionError "integer modulo by zero")
  else Ok (a mod m).

(** [pow(base, exp, mod)] on integers (CPython 3.8 and later: a negative
    exponent inverts the base first). *)
Definition pow3 (base exp m : Z) : res Z :=
  if m =? 0 then Raise (ValueError "pow() 3rd argument cannot be 0")
  else if exp <? 0 then
    if Z.gcd base m =? 1
    then Ok ((Z.invmod base (Z.abs m)) ^ (- exp) mod m)
    else Raise (ValueError "base is not invertible for the given modulus")
  else Ok (base ^ exp mod m).

(** [str(z)], the text an f-string substitutes for an integer. *)
Definition str (z : Z) : string :=
  DecimalString.NilZero.string_of_int (Z.to_int z).

(** [hex(z)] *)
Definition hex (z : Z) : string :=
  (if z <? 0 then "-0x" else "0x")
  ++ HexadecimalString.NilZero.string_of_int (Z.to_hex_int (Z.abs z)).

(** Binary digits of a positive number, least significant first. *)
Fixpoint pos_bits (n : positive) : list ascii :=
  match n with
  | xH => ["1"%char]
  | xO n' => "0"%char :: pos_bits n'
  | xI n' => "1"%char :: pos_bits n'
  end.

(** [bin(z)] *)
Definition bin (z : Z) : string :=
  match z with
  | Z0 => "0b0"
  | Zpos n => "0b" ++ string_of_list_ascii (rev (pos_bits n))
  | Zneg n => "-0b" ++ string_of_list_ascii (rev (pos_bits n))
  end.

(** [s[n:]] *)
Definition drop (n : nat) (s : string) : string :=
  string_of_list_ascii (skipn n (list_ascii_of_string s)).

(** [reversed(s)], as the list of its characters. *)
Definition reversed (s : string) : list ascii := rev (list_ascii_of_string s).

(** [message.encode()]: a message is represented by the string of its UTF-8
    bytes, so encoding reads the bytes off. *)
Definition encode (s : string) : list Z :=
  map (fun c => Z.of_N (N_of_ascii c)) (list_ascii_of_string s).

(** The double-quote character, for f-strings that quote the message. *)
Definition dq : string := String (ascii_of_nat 34) EmptyString.

End Py.

Import Py.

Declare Scope res_scope.
Delimit Scope res_scope with res.
Notation "x <- m ;; k" := (Py.bind m (fun x => k))
  (at level 61, m at next level, right associativity) : res_scope.

(** JSON-like values: what the engine stores in its dictionaries.  A
    dictionary is an association list in insertion order. *)
#[warnings="-register-all"]
Inductive value : Type :=
| VInt (z : Z)
| VStr (s : string)
| VBool (b : bool)
| VNone
| VTuple (l : list value)
| VList (l : list value)
| VDict (d : list (string * value)).

Definition dict := list (string * value).

Fixpoint dict_get (key : string) (d : dict) : option value :=
  match d with
  | [] => None
  | (k, v) :: d' => if String.eqb k key then Some v else dict_get key d'
  end.

(** [key in d] *)
Definition dict_mem (key : string) (d : dict) : bool :=
  match dict_get key d with Some _ => true | None => false end.

(** [d.get(key, False)] read as a truth value; the engine stores only
    [True] under the keys it is asked for. *)
Definition dict_get_bool (key : string) (d : dict) : bool :=
  match dict_get key d with Some (VBool b) => b | _ => false end.

(* ===================================================================== *)
(** * hashlib.sha256                                                      *)
(* ===================================================================== *)

Module Sha256.

Definition w32 (x : Z) : Z := Z.land x 0xFFFFFFFF.
Definition add32 (x y : Z) : Z := w32 (x + y).
Definition rotr (n x : Z) : Z :=
  w32 (Z.lor (Z.shiftr x n) (Z.shiftl x (32 - n))).
Definition shr (n x : Z) : Z := Z.shiftr x n.

Definition Ch (x y z : Z) : Z :=
  Z.lxor (Z.land x y) (Z.land (Z.lxor x 0xFFFFFFFF) z).
Definition Maj (x y z : Z) : Z :=
  Z.lxor (Z.lxor (Z.land x y) (Z.land x z)) (Z.land y z).
Definition Sigma0 (x : Z) : Z :=
  Z.lxor (Z.lxor (rotr 2 x) (rotr 13 x)) (rotr 22 x).
Definition Sigma1 (x : Z) : Z :=
  Z.lxor (Z.lxor (rotr 6 x) (rotr 11 x)) (rotr 25 x).
Definition sigma0 (x : Z) : Z :=
  Z.lxor (Z.lxor (rotr 7 x) (rotr 18 x)) (shr 3 x).
Definition sigma1 (x : Z) : Z :=
  Z.lxor (Z.lxor (rotr 17 x) (rotr 19 x)) (shr 10 x).

(** The first sixty-four primes. *)
Definition primes : list Z :=
  [2; 3; 5; 7; 11; 13; 17; 19; 23; 29; 31; 37; 41; 43; 47; 53;
   59; 61; 67; 71; 73; 79; 83; 89; 97; 101; 103; 107; 109; 113; 127; 131;
   137; 139; 149; 151; 157; 163; 167; 173; 179; 181; 191; 193; 197; 199;
   211; 223; 227; 229; 233; 239; 241; 251; 257; 263; 269; 271; 277; 281;
   283; 293; 307; 311].

(** Integer cube root below [2 ^ bits], one bit at a time from the top. *)
Fixpoint cube_root (bits : nat) (n : Z) (acc : Z) : Z :=
  match bits with
  | O => acc
  | S bits' =>
      let cand := acc + 2 ^ Z.of_nat bits' in
      cube_root bits' n (if cand * cand * cand <=? n then cand else acc)
  end.

(** Round constants: the first 32 bits of the fractional parts of the cube
    roots of the primes. *)
Definition K : list Z :=
  map (fun q => cube_root 36 (q * 2 ^ 96) 0 mod 2 ^ 32) primes.

(** Initial hash value: the first 32 bits of the fractional parts of the
    square roots of the first eight primes. *)
Definition H0 : list Z :=
  map (fun q => Z.sqrt (q * 2 ^ 64) mod 2 ^ 32) (firstn 8 primes).

(** Big-endian value of a byte sequence. *)
Definition be_value (bs : list Z) : Z :=
  fold_left (fun acc b => acc * 256 + b) bs 0.

(** The [n] low bytes of [v], most significant first. *)
Fixpoint be_bytes (n : nat) (v : Z) : list Z :=
  match n with
  | O => []
  | S n' => Z.land (Z.shiftr v (8 * Z.of_nat n')) 0xFF :: be_bytes n' v
  end.

(** Message, the byte 0x80, zero bytes up to 56 modulo 64, then the bit
    length on eight bytes. *)
Definition pad (msg : list Z) : list Z :=
  let len := Z.of_nat (List.length msg) in
  let zeros := Z.to_nat ((55 - len) mod 64) in
  (msg ++ [0x80] ++ repeat 0 zeros ++ be_bytes 8 (8 * len))%list.

Fixpoint chunks (fuel : nat) (n : nat) (l : list Z) : list (list Z) :=
  match fuel, l with
  | O, _ | _, [] => []
  | S fuel', _ => firstn n l :: chunks fuel' n (skipn n l)
  end.

Definition block_words (block : list Z) : list Z :=
  map be_value (chunks 16 4 block).

(** Message schedule: [n] further words appended to [w]. *)
Fixpoint extend (n : nat) (w : list Z) : list Z :=
  match n with
  | O => w
  | S n' =>
      let t := List.length w in
      let back i := nth (t - i) w 0 in
      extend n'
        (w ++ [add32 (add32 (add32 (sigma1 (back 2%nat)) (back 7%nat))
                            (sigma0 (back 15%nat)))
                     (back 16%nat)])%list
  end.

Definition round (st : list Z) (kw : Z * Z) : list Z :=
  match st with
  | [a; b; c; d; e; f; g; h] =>
      let t1 :=
        add32 (add32 (add32 (add32 h (Sigma1 e)) (Ch e f g)) (fst kw)) (snd kw) in
      let t2 := add32 (Sigma0 a) (Maj a b c) in
      [add32 t1 t2; a; b; c; add32 d t1; e; f; g]
  | _ => st
  end.

Definition compress (h : list Z) (block : list Z) : list Z :=
  let w := extend 48 (block_words block) in
  let st := fold_left round (combine K w) h in
  map (fun hs => add32 (fst hs) (snd hs)) (combine h st).

Definition digest_words (msg : list Z) : list Z :=
  let padded := pad msg in
  fold_left compress (chunks (List.length padded) 64 padded) H0.

(** [int(hashlib.sha256(msg).hexdigest(), 16)] *)
Definition digest (msg : list Z) : Z :=
  fold_left (fun acc w => acc * 2 ^ 32 + w) (digest_words msg) 0.

End Sha256.

(* ===================================================================== *)
(** * Mathematical utilities                                              *)
(* ===================================================================== *)

(** The recursion of [extended_gcd] is on [b % a], whose absolute value is
    below that of [a]. *)
Definition abs_lt (x y : Z) : Prop := Z.abs x < Z.abs y.

Lemma abs_lt_wf : well_founded abs_lt.
Proof.
  apply (well_founded_lt_compat Z (fun x => Z.abs_nat x)).
  unfold abs_lt. intros x y H. lia.
Qed.

#[local] Instance abs_lt_WellFounded : WellFounded abs_lt :=
  Acc_intro_generator 12 abs_lt_wf.

(** [extended_gcd(a, b)] *)
Equations? extended_gcd (a b : Z) : Z * Z * Z by wf a abs_lt :=
  extended_gcd a b with Z.eq_dec a 0 => {
    | left _ := (b, 0, 1)
    | right _ :=
        let '(gcd, x1, y1) := extended_gcd (b mod a) a in
        let x := y1 - (b / a) * x1 in
        let y := x1 in
        (gcd, x, y) }.
Proof.
  unfold abs_lt. pose proof (Z.mod_bound_or b a). lia.
Qed.

(** [mod_inverse(a, m)] *)
Definition mod_inverse (a m : Z) : res Z :=
  (a_mod_m <- Py.mod_ a m ;;
   let '(gcd, x, _) := extended_gcd a_mod_m m in
   if negb (gcd =? 1) then
     Raise (ValueError ("Modular inverse does not exist for "
                          ++ Py.str a ++ " mod " ++ Py.str m))
   else
     Ok ((x mod m + m) mod m))%res.

(** [pow_mod(base, exp, mod)] *)
Definition pow_mod (base exp m : Z) : res Z := Py.pow3 base exp m.

(** [hash_message(message)] *)
Definition hash_message (message : string) : Z :=
  Sha256.digest (Py.encode message).

(* ===================================================================== *)
(** * DSA (educational mode)                                              *)
(* ===================================================================== *)

(** The request fields [p], [q], [g], [x], [k] (already converted by [int])
    and [message] are the arguments; the local list [steps] is threaded
    through as the trace built so far. *)

Definition dsa_warning : string :=
  "⚠️ EDUCATIONAL MODE ONLY - These parameters are NOT cryptographically secure!".

(** [dsa_educational_sign(params)] *)
Definition dsa_educational_sign (p q g x k : Z) (message : string) : res value :=
  (let steps : list value := [] in
   (* STEP 1: Compute Public Key *)
   y <- pow_mod g x p ;;
   let steps := (steps ++ [VDict
     [("step", VInt 1);
      ("title", VStr "Compute Public Key");
      ("formula", VStr "y = g^x mod p");
      ("substitution",
        VStr ("y = " ++ Py.str g ++ "^" ++ Py.str x ++ " mod " ++ Py.str p));
      ("result", VInt y);
      ("explanation", VStr "The public key is derived from the private key using modular exponentiation. This is a one-way function.")]])%list in
   (* STEP 2: Hash the Message *)
   let h := hash_message message in
   h_mod_q <- Py.mod_ h q ;;
   let steps := (steps ++ [VDict
     [("step", VInt 2);
      ("title", VStr "Hash Message");
      ("formula", VStr "H(m) mod q");
      ("substitution",
        VStr ("SHA-256(" ++ Py.dq ++ message ++ Py.dq ++ ") mod " ++ Py.str q));
      ("result", VInt h_mod_q);
      ("hash_full", VStr (Py.hex h));
      ("explanation", VStr "The message is hashed using SHA-256, then reduced modulo q to fit within the group.")]])%list in
   (* STEP 3: Compute r (First Part of Signature) *)
   g_k_mod_p <- pow_mod g k p ;;
   r <- Py.mod_ g_k_mod_p q ;;
   if r =? 0 then
     Ok (VDict
       [("error", VStr "Invalid signature: r = 0. Choose a different k.");
        ("steps", VList steps)])
   else
   (* STEP 4: Compute Modular Inverse of k *)
   k_inv <- mod_inverse k q ;;
   k_k_inv <- Py.mod_ (k * k_inv) q ;;
   let steps := (steps ++ [VDict
     [("step", VInt 4);
      ("title", VStr "Compute Modular Inverse of k");
      ("formula", VStr "k^(-1) mod q");
      ("substitution", VStr (Py.str k ++ "^(-1) mod " ++ Py.str q));
      ("result", VInt k_inv);
      ("verification",
        VStr ("(" ++ Py.str k ++ " × " ++ Py.str k_inv ++ ") mod " ++ Py.str q
              ++ " = " ++ Py.str k_k_inv));
      ("explanation", VStr "The modular inverse of k is needed to compute s. This is why k must be chosen carefully and never reused.")]])%list in
   (* STEP 5: Compute s (Second Part of Signature) *)
   xr <- Py.mod_ (x * r) q ;;
   h_plus_xr <- Py.mod_ (h_mod_q + xr) q ;;
   s <- Py.mod_ (k_inv * h_plus_xr) q ;;
   let steps := (steps ++ [VDict
     [("step", VInt 5);
      ("title", VStr "Compute s");
      ("formula", VStr "s = k^(-1) × (H(m) + x×r) mod q");
      ("substitution",
        VStr ("s = " ++ Py.str k_inv ++ " × (" ++ Py.str h_mod_q ++ " + "
              ++ Py.str x ++ "×" ++ Py.str r ++ ") mod " ++ Py.str q));
      ("intermediate_steps", VList
        [VStr ("x×r = " ++ Py.str x ++ "×" ++ Py.str r ++ " = " ++ Py.str xr
               ++ " mod " ++ Py.str q);
         VStr ("H(m) + x×r = " ++ Py.str h_mod_q ++ " + " ++ Py.str xr ++ " = "
               ++ Py.str h_plus_xr ++ " mod " ++ Py.str q);
         VStr ("s = " ++ Py.str k_inv ++ "×" ++ Py.str h_plus_xr ++ " = "
               ++ Py.str s ++ " mod " ++ Py.str q)]);
      ("result", VInt s);
      ("explanation", VStr "s binds together the hash, private key, and r. Without knowing x, an attacker cannot forge valid signatures.")]])%list in
   if s =? 0 then
     Ok (VDict
       [("error", VStr "Invalid signature: s = 0. Choose a different k.");
        ("steps", VList steps)])
   else
   let verification_info := VDict
     [("title", VStr "Signature Verification (How it works)");
      ("formula", VStr "v = (g^(H(m)×w) × y^(r×w) mod p) mod q, where w = s^(-1) mod q");
      ("explanation", VStr "To verify, compute w = s^(-1) mod q, then v. If v = r, the signature is valid.");
      ("note", VStr "The verification works because the mathematical relationship between r, s, and the public key y ensures only someone with the private key x could have created this signature.")] in
   Ok (VDict
     [("success", VBool true);
      ("signature", VDict [("r", VInt r); ("s", VInt s)]);
      ("public_key", VInt y);
      ("steps", VList steps);
      ("verification", verification_info);
      ("warning", VStr dsa_warning)]))%res.

(** [dsa_educational_verify(params)] *)
Definition dsa_educational_verify (p q g y r s : Z) (message : string) : res value :=
  (let steps : list value := [] in
   (* STEP 1: Hash the Message *)
   let h := hash_message message in
   h_mod_q <- Py.mod_ h q ;;
   let steps := (steps ++ [VDict
     [("step", VInt 1);
      ("title", VStr "Hash Message");
      ("formula", VStr "H(m) mod q");
      ("substitution",
        VStr ("SHA-256(" ++ Py.dq ++ message ++ Py.dq ++ ") mod " ++ Py.str q));
      ("result", VInt h_mod_q);
      ("hash_full", VStr (Py.hex h));
      ("explanation", VStr "Hash the message the same way as during signing.")]])%list in
   (* STEP 2: Compute w = s^(-1) mod q *)
   w <- mod_inverse s q ;;
   s_w <- Py.mod_ (s * w) q ;;
   let steps := (steps ++ [VDict
     [("step", VInt 2);
      ("title", VStr "Compute w = s^(-1) mod q");
      ("formula", VStr "w = s^(-1) mod q");
      ("substitution", VStr ("w = " ++ Py.str s ++ "^(-1) mod " ++ Py.str q));
      ("result", VInt w);
      ("verification",
        VStr ("(" ++ Py.str s ++ " × " ++ Py.str w ++ ") mod " ++ Py.str q
              ++ " = " ++ Py.str s_w));
      ("explanation", VStr ("Compute the modular inverse of s to " ++ Py.dq ++ "undo" ++ Py.dq ++ " its effect."))]])%list in
   (* STEP 3: Compute u1 = H(m) * w mod q *)
   u1 <- Py.mod_ (h_mod_q * w) q ;;
   let steps := (steps ++ [VDict
     [("step", VInt 3);
      ("title", VStr "Compute u₁");
      ("formula", VStr "u₁ = H(m) × w mod q");
      ("substitution",
        VStr ("u₁ = " ++ Py.str h_mod_q ++ " × " ++ Py.str w ++ " mod " ++ Py.str q));
      ("result", VInt u1);
      ("explanation", VStr "First verification component combines message hash and w.")]])%list in
   (* STEP 4: Compute u2 = r * w mod q *)
   u2 <- Py.mod_ (r * w) q ;;
   let steps := (steps ++ [VDict
     [("step", VInt 4);
      ("title", VStr "Compute u₂");
      ("formula", VStr "u₂ = r × w mod q");
      ("substitution",
        VStr ("u₂ = " ++ Py.str r ++ " × " ++ Py.str w ++ " mod " ++ Py.str q));
      ("result", VInt u2);
      ("explanation", VStr "Second verification component combines r and w.")]])%list in
   (* STEP 5: Compute v = (g^u1 * y^u2 mod p) mod q *)
   g_u1 <- pow_mod g u1 p ;;
   y_u2 <- pow_mod y u2 p ;;
   g_y_product <- Py.mod_ (g_u1 * y_u2) p ;;
   v <- Py.mod_ g_y_product q ;;
   let steps := (steps ++ [VDict
     [("step", VInt 5);
      ("title", VStr "Compute v");
      ("formula", VStr "v = (g^(u₁) × y^(u₂) mod p) mod q");
      ("substitution",
        VStr ("v = (" ++ Py.str g ++ "^" ++ Py.str u1 ++ " × " ++ Py.str y ++ "^"
              ++ Py.str u2 ++ " mod " ++ Py.str p ++ ") mod " ++ Py.str q));
      ("intermediate_steps", VList
        [VStr ("g^(u₁) mod p = " ++ Py.str g ++ "^" ++ Py.str u1 ++ " mod "
               ++ Py.str p ++ " = " ++ Py.str g_u1);
         VStr ("y^(u₂) mod p = " ++ Py.str y ++ "^" ++ Py.str u2 ++ " mod "
               ++ Py.str p ++ " = " ++ Py.str y_u2);
         VStr ("g^(u₁) × y^(u₂) mod p = " ++ Py.str g_u1 ++ " × " ++ Py.str y_u2
               ++ " mod " ++ Py.str p ++ " = " ++ Py.str g_y_product);
         VStr ("v = " ++ Py.str g_y_product ++ " mod " ++ Py.str q ++ " = "
               ++ Py.str v)]);
      ("result", VInt v);
      ("explanation", VStr "This reconstructs the r value from the signature components.")]])%list in
   (* STEP 6: Verify v = r *)
   let is_valid := v =? r in
   let steps := (steps ++ [VDict
     [("step", VInt 6);
      ("title", VStr "Verify Signature");
      ("formula", VStr "v = r?");
      ("substitution", VStr (Py.str v ++ " = " ++ Py.str r ++ "?"));
      ("result", VStr (if is_valid then "✅ VALID" else "❌ INVALID"));
      ("explanation", VStr "Signature is valid if v equals r. This proves the signature was created by someone with the private key.")]])%list in
   Ok (VDict
     [("success", VBool true);
      ("valid", VBool is_valid);
      ("message",
        VStr (if is_valid then "✅ Signature is VALID" else "❌ Signature is INVALID"));
      ("verification_value", VInt v);
      ("expected_value", VInt r);
      ("steps", VList steps);
      ("warning", VStr dsa_warning)]))%res.

(* ===================================================================== *)
(** * Elliptic curve utilities                                            *)
(* ===================================================================== *)

(** A point is a pair of integers, or [None] for the point at infinity. *)
Definition point : Type := option (Z * Z).

(** [P == Q] on points *)
Definition point_eqb (P Q : point) : bool :=
  match P, Q with
  | None, None => true
  | Some (x1, y1), Some (x2, y2) => (x1 =? x2) && (y1 =? y2)
  | _, _ => false
  end.

(** What an f-string substitutes for a point. *)
Definition point_str (P : point) : string :=
  match P with
  | None => "None"
  | Some (x, y) => "(" ++ Py.str x ++ ", " ++ Py.str y ++ ")"
  end.

Definition point_value (P : point) : value :=
  match P with
  | None => VNone
  | Some (x, y) => VTuple [VInt x; VInt y]
  end.

(** The curve operations are run in an instrumented monad: next to the
    result (or the exception) a computation yields the log of the modular
    inversions it requested and of the scalar multiplications it started.
    The log is ghost state: no result depends on it. *)
Inductive event : Type :=
| InvRequest (denominator modulus : Z)
| ScalarMul (k : Z) (P : point).

Definition M (A : Type) : Type := list event -> res A * list event.

Definition ret {A : Type} (a : A) : M A := fun log => (Ok a, log).

Definition raise {A : Type} (e : exn) : M A := fun log => (Raise e, log).

Definition bindM {A B : Type} (m : M A) (f : A -> M B) : M B :=
  fun log =>
    match m log with
    | (Ok a, log') => f a log'
    | (Raise e, log') => (Raise e, log')
    end.

Definition lift {A : Type} (r : res A) : M A := fun log => (r, log).

Definition emit (ev : event) : M unit := fun log => (Ok tt, (log ++ [ev])%list).

(** Result and log of a computation started on an empty log. *)
Definition result_of {A : Type} (m : M A) : res A := fst (m []).
Definition log_of {A : Type} (m : M A) : list event := snd (m []).

Declare Scope M_scope.
Delimit Scope M_scope with M.
Notation "x <- m ;; k" := (bindM m (fun x => k))
  (at level 61, m at next level, right associativity) : M_scope.
Notation "m ;;; k" := (bindM m (fun _ => k))
  (at level 61, right associativity) : M_scope.

Module EllipticCurve.

(** The curve [y² = x³ + ax + b (mod p)] *)
Record t : Type := mk { a : Z; b : Z; p : Z }.

(** [is_on_curve(self, point)] *)
Definition is_on_curve (self : t) (pt : point) : res bool :=
  match pt with
  | None => Ok true
  | Some (x, y) =>
      (v <- Py.mod_ (y * y - (x ^ 3 + self.(a) * x + self.(b))) self.(p) ;;
       Ok (v =? 0))%res
  end.

(** The tail of [point_add]: the result point from the slope. *)
Definition point_add_result (self : t) (x1 y1 x2 : Z) (lam : Z) : M point :=
  (x3 <- lift (Py.mod_ (lam * lam - x1 - x2) self.(p)) ;;
   y3 <- lift (Py.mod_ (lam * (x1 - x3) - y1) self.(p)) ;;
   ret (Some (x3, y3)))%M.

(** [point_add(self, P, Q)] *)
Definition point_add (self : t) (P Q : point) : M point :=
  match P, Q with
  | None, _ => ret Q
  | _, None => ret P
  | Some (x1, y1), Some (x2, y2) =>
      if point_eqb P Q then
        (* Case 1: point doubling *)
        if y1 =? 0 then ret None
        else
          (numerator <- lift (Py.mod_ (3 * x1 * x1 + self.(a)) self.(p)) ;;
           denominator <- lift (Py.mod_ (2 * y1) self.(p)) ;;
           emit (InvRequest denominator self.(p)) ;;;
           inv <- lift (mod_inverse denominator self.(p)) ;;
           lam <- lift (Py.mod_ (numerator * inv) self.(p)) ;;
           point_add_result self x1 y1 x2 lam)%M
      else
        (* Case 2: point addition *)
        if x1 =? x2 then ret None
        else
          (numerator <- lift (Py.mod_ (y2 - y1) self.(p)) ;;
           denominator <- lift (Py.mod_ (x2 - x1) self.(p)) ;;
           emit (InvRequest denominator self.(p)) ;;;
           inv <- lift (mod_inverse denominator self.(p)) ;;
           lam <- lift (Py.mod_ (numerator * inv) self.(p)) ;;
           point_add_result self x1 y1 x2 lam)%M
  end.

(** What [scalar_multiply] returns: the point, or the point with the list
    of steps when [show_steps] is set. *)
Definition smul_ret (show_steps : bool) : Type :=
  if show_steps then (point * list value)%type else point.

Definition smul_return (show_steps : bool) (result : point) (steps : list value)
  : smul_ret show_steps :=
  match show_steps return smul_ret show_steps with
  | true => (result, steps)
  | false => result
  end.

(** The loop [for i, bit in enumerate(reversed(binary))], from index [i]. *)
Fixpoint scalar_multiply_loop (self : t) (show_steps : bool) (len_binary : Z)
    (bits : list ascii) (i : Z) (result temp : point) (steps : list value)
  : M (point * list value) :=
  match bits with
  | [] => ret (result, steps)
  | bit :: rest =>
      let step_info : dict :=
        [("iteration", VInt i);
         ("bit", VStr (String bit EmptyString));
         ("bit_position", VStr ("2^" ++ Py.str i))] in
      (* If bit is 1, add current point to result *)
      (added <-
         (if Ascii.eqb bit "1" then
            (result' <- point_add self result temp ;;
             let step_info' :=
               (step_info ++
                [("operation", VStr "Add");
                 ("detail", VStr ("Result = Result + " ++ point_str temp));
                 ("result", point_value result')])%list in
             ret (result',
                  if show_steps then (steps ++ [VDict step_info'])%list else steps))
          else ret (result, steps)) ;;
       let '(result, steps) := added in
       (* Double the current point for next iteration (except on last) *)
       doubled <-
         (if i <? len_binary - 1 then
            (temp' <- point_add self temp temp ;;
             ret (temp',
                  if show_steps && Ascii.eqb bit "0" then
                    (steps ++
                     [VDict (step_info ++ [("operation", VStr "Skip (bit=0)")])])%list
                  else steps))
          else ret (temp, steps)) ;;
       let '(temp, steps) := doubled in
       scalar_multiply_loop self show_steps len_binary rest (i + 1)
         result temp steps)%M
  end.

(** [scalar_multiply(self, k, P, show_steps)] *)
Definition scalar_multiply (self : t) (k : Z) (P : point) (show_steps : bool)
  : M (smul_ret show_steps) :=
  (emit (ScalarMul k P) ;;;
   if (k =? 0) || (match P with None => true | Some _ => false end) then
     ret (smul_return show_steps None [])
   else if k <? 0 then
     raise (ValueError "Negative scalar not supported in this educational implementation")
   else
     let binary := Py.drop 2 (Py.bin k) in
     let steps : list value :=
       if show_steps then
         [VDict
            [("info", VStr ("Converting scalar k=" ++ Py.str k ++ " to binary: "
                            ++ binary));
             ("explanation", VStr "We use the double-and-add algorithm, processing bits from least to most significant")]]
       else [] in
     out <- scalar_multiply_loop self show_steps
              (Z.of_nat (String.length binary)) (Py.reversed binary) 0
              None P steps ;;
     ret (smul_return show_steps (fst out) (snd out)))%M.

End EllipticCurve.

(* ===================================================================== *)
(** * ECDSA (educational mode)                                            *)
(* ===================================================================== *)

Definition ecdsa_warning : string :=
  "⚠️ EDUCATIONAL MODE ONLY - This toy curve is NOT cryptographically secure!".

(** [steps[:5] if len(steps) > 5 else steps] *)
Definition first_five (steps : list value) : list value :=
  if 5 <? Z.of_nat (List.length steps) then firstn 5 steps else steps.

(** [ecdsa_educational_sign(params)] *)
Definition ecdsa_educational_sign (a b p Gx Gy n d k : Z) (message : string)
  : M value :=
  (let steps : list value := [] in
   (* STEP 0: Setup *)
   let curve := EllipticCurve.mk a b p in
   let G : point := Some (Gx, Gy) in
   G_ok <- lift (EllipticCurve.is_on_curve curve G) ;;
   if negb G_ok then
     ret (VDict
       [("error", VStr ("Generator point G=(" ++ Py.str Gx ++ ", " ++ Py.str Gy
                        ++ ") is not on the curve y² = x³ + " ++ Py.str a
                        ++ "x + " ++ Py.str b ++ " (mod " ++ Py.str p ++ ")"));
        ("steps", VList [])])
   else
   let steps := (steps ++ [VDict
     [("step", VInt 0);
      ("title", VStr "Curve Definition");
      ("curve_equation",
        VStr ("y² = x³ + " ++ Py.str a ++ "x + " ++ Py.str b ++ " (mod "
              ++ Py.str p ++ ")"));
      ("generator", VStr ("G = (" ++ Py.str Gx ++ ", " ++ Py.str Gy ++ ")"));
      ("order", VStr ("n = " ++ Py.str n));
      ("verification",
        VStr ("G is on the curve: " ++ Py.str Gy ++ "² mod " ++ Py.str p ++ " = ("
              ++ Py.str Gx ++ "³ + " ++ Py.str a ++ "×" ++ Py.str Gx ++ " + "
              ++ Py.str b ++ ") mod " ++ Py.str p));
      ("explanation", VStr "The elliptic curve and generator point define the cryptographic group we work in.")]])%list in
   (* STEP 1: Compute Public Key *)
   dG <- EllipticCurve.scalar_multiply curve d G true ;;
   let '(Q, mult_steps) := dG in
   let steps := (steps ++ [VDict
     [("step", VInt 1);
      ("title", VStr "Compute Public Key");
      ("formula", VStr "Q = d × G");
      ("substitution",
        VStr ("Q = " ++ Py.str d ++ " × (" ++ Py.str Gx ++ ", " ++ Py.str Gy ++ ")"));
      ("result", point_value Q);
      ("scalar_multiplication_steps", VList (first_five mult_steps));
      ("total_operations", VInt (Z.of_nat (List.length mult_steps)));
      ("explanation", VStr "Public key Q is computed by scalar multiplication of the generator G by private key d. This is a one-way function.")]])%list in
   (* STEP 2: Hash the Message *)
   let h := hash_message message in
   e <- lift (Py.mod_ h n) ;;
   let steps := (steps ++ [VDict
     [("step", VInt 2);
      ("title", VStr "Hash Message");
      ("formula", VStr "e = H(m) mod n");
      ("substitution",
        VStr ("e = SHA-256(" ++ Py.dq ++ message ++ Py.dq ++ ") mod " ++ Py.str n));
      ("hash_full", VStr (Py.hex h));
      ("result", VInt e);
      ("explanation", VStr "Message is hashed and reduced modulo n to fit within the group order.")]])%list in
   (* STEP 3: Compute k × G *)
   kG_pair <- EllipticCurve.scalar_multiply curve k G true ;;
   let '(kG, kG_steps) := kG_pair in
   match kG with
   | None =>
       ret (VDict
         [("error", VStr "Invalid nonce: k × G resulted in point at infinity");
          ("steps", VList steps)])
   | Some (x1, y1) =>
   let steps := (steps ++ [VDict
     [("step", VInt 3);
      ("title", VStr "Compute k × G");
      ("formula", VStr "k × G = (x₁, y₁)");
      ("substitution",
        VStr (Py.str k ++ " × (" ++ Py.str Gx ++ ", " ++ Py.str Gy ++ ") = "
              ++ point_str kG));
      ("result", point_value kG);
      ("scalar_multiplication_steps", VList (first_five kG_steps));
      ("explanation", VStr "The nonce k creates randomness. Computing k×G is easy, but finding k from k×G is computationally infeasible (ECDLP).")]])%list in
   (* STEP 4: Compute r *)
   r <- lift (Py.mod_ x1 n) ;;
   if r =? 0 then
     ret (VDict
       [("error", VStr "Invalid signature: r = 0. Choose a different k.");
        ("steps", VList steps)])
   else
   (* STEP 5: Compute Modular Inverse of k *)
   k_inv <- lift (mod_inverse k n) ;;
   k_k_inv <- lift (Py.mod_ (k * k_inv) n) ;;
   let steps := (steps ++ [VDict
     [("step", VInt 5);
      ("title", VStr "Compute Modular Inverse of k");
      ("formula", VStr "k⁻¹ mod n");
      ("substitution", VStr (Py.str k ++ "⁻¹ mod " ++ Py.str n));
      ("result", VInt k_inv);
      ("verification",
        VStr ("(" ++ Py.str k ++ " × " ++ Py.str k_inv ++ ") mod " ++ Py.str n
              ++ " = " ++ Py.str k_k_inv));
      ("explanation", VStr "The modular inverse is needed to compute s. This is why k must NEVER be reused across signatures.")]])%list in
   (* STEP 6: Compute s *)
   dr <- lift (Py.mod_ (d * r) n) ;;
   e_plus_dr <- lift (Py.mod_ (e + dr) n) ;;
   s <- lift (Py.mod_ (k_inv * e_plus_dr) n) ;;
   let steps := (steps ++ [VDict
     [("step", VInt 6);
      ("title", VStr "Compute s");
      ("formula", VStr "s = k⁻¹(e + d×r) mod n");
      ("substitution",
        VStr ("s = " ++ Py.str k_inv ++ "×(" ++ Py.str e ++ " + " ++ Py.str d
              ++ "×" ++ Py.str r ++ ") mod " ++ Py.str n));
      ("intermediate_steps", VList
        [VStr ("d×r = " ++ Py.str d ++ "×" ++ Py.str r ++ " = " ++ Py.str dr
               ++ " mod " ++ Py.str n);
         VStr ("e + d×r = " ++ Py.str e ++ " + " ++ Py.str dr ++ " = "
               ++ Py.str e_plus_dr ++ " mod " ++ Py.str n);
         VStr ("s = " ++ Py.str k_inv ++ "×" ++ Py.str e_plus_dr ++ " = "
               ++ Py.str s ++ " mod " ++ Py.str n)]);
      ("result", VInt s);
      ("explanation", VStr "s binds the hash, private key, and r together. Only someone with private key d can compute valid s.")]])%list in
   if s =? 0 then
     ret (VDict
       [("error", VStr "Invalid signature: s = 0. Choose a different k.");
        ("steps", VList steps)])
   else
   let verification_info := VDict
     [("title", VStr "Signature Verification (How it works)");
      ("steps", VList
        [VStr "Compute w = s⁻¹ mod n";
         VStr "Compute u₁ = e×w mod n";
         VStr "Compute u₂ = r×w mod n";
         VStr "Compute point (x, y) = u₁×G + u₂×Q";
         VStr "Signature is valid if x mod n = r"]);
      ("explanation", VStr "Verification uses the public key Q to check if the signature was created by someone with private key d, without revealing d.")] in
   (* [Q[0]], [Q[1]] *)
   match Q with
   | None => raise (TypeError "'NoneType' object is not subscriptable")
   | Some (Qx, Qy) =>
   ret (VDict
     [("success", VBool true);
      ("signature", VDict [("r", VInt r); ("s", VInt s)]);
      ("public_key", VDict [("Qx", VInt Qx); ("Qy", VInt Qy)]);
      ("curve_info", VDict
        [("equation",
           VStr ("y² = x³ + " ++ Py.str a ++ "x + " ++ Py.str b ++ " (mod "
                 ++ Py.str p ++ ")"));
         ("generator", VStr ("G = (" ++ Py.str Gx ++ ", " ++ Py.str Gy ++ ")"));
         ("order", VInt n)]);
      ("steps", VList steps);
      ("verification", verification_info);
      ("warning", VStr ecdsa_warning)])
   end
   end)%M.

(** [ecdsa_educational_verify(params)] *)
Definition ecdsa_educational_verify (a b p Gx Gy n Qx Qy r s : Z)
    (message : string) : M value :=
  (let steps : list value := [] in
   let curve := EllipticCurve.mk a b p in
   let G : point := Some (Gx, Gy) in
   let Q : point := Some (Qx, Qy) in
   (* Verify points are on curve *)
   G_ok <- lift (EllipticCurve.is_on_curve curve G) ;;
   if negb G_ok then
     ret (VDict
       [("error", VStr ("Generator point G=(" ++ Py.str Gx ++ ", " ++ Py.str Gy
                        ++ ") is not on the curve"));
        ("steps", VList [])])
   else
   Q_ok <- lift (EllipticCurve.is_on_curve curve Q) ;;
   if negb Q_ok then
     ret (VDict
       [("error", VStr ("Public key point Q=(" ++ Py.str Qx ++ ", " ++ Py.str Qy
                        ++ ") is not on the curve"));
        ("steps", VList [])])
   else
   let steps := (steps ++ [VDict
     [("step", VInt 0);
      ("title", VStr "Setup");
      ("curve_equation",
        VStr ("y² = x³ + " ++ Py.str a ++ "x + " ++ Py.str b ++ " (mod "
              ++ Py.str p ++ ")"));
      ("generator", VStr ("G = (" ++ Py.str Gx ++ ", " ++ Py.str Gy ++ ")"));
      ("public_key", VStr ("Q = (" ++ Py.str Qx ++ ", " ++ Py.str Qy ++ ")"));
      ("explanation", VStr "Verify curve parameters and points are valid.")]])%list in
   (* STEP 1: Hash the Message *)
   let h := hash_message message in
   e <- lift (Py.mod_ h n) ;;
   let steps := (steps ++ [VDict
     [("step", VInt 1);
      ("title", VStr "Hash Message");
      ("formula", VStr "e = H(m) mod n");
      ("substitution",
        VStr ("e = SHA-256(" ++ Py.dq ++ message ++ Py.dq ++ ") mod " ++ Py.str n));
      ("result", VInt e);
      ("hash_full", VStr (Py.hex h));
      ("explanation", VStr "Hash the message the same way as during signing.")]])%list in
   (* STEP 2: Compute w = s^(-1) mod n *)
   w <- lift (mod_inverse s n) ;;
   s_w <- lift (Py.mod_ (s * w) n) ;;
   let steps := (steps ++ [VDict
     [("step", VInt 2);
      ("title", VStr "Compute w = s^(-1) mod n");
      ("formula", VStr "w = s^(-1) mod n");
      ("substitution", VStr ("w = " ++ Py.str s ++ "^(-1) mod " ++ Py.str n));
      ("result", VInt w);
      ("verification",
        VStr ("(" ++ Py.str s ++ " × " ++ Py.str w ++ ") mod " ++ Py.str n
              ++ " = " ++ Py.str s_w));
      ("explanation", VStr ("Compute the modular inverse of s to " ++ Py.dq ++ "undo" ++ Py.dq ++ " its effect."))]])%list in
   (* STEP 3: Compute u1 = e * w mod n *)
   u1 <- lift (Py.mod_ (e * w) n) ;;
   let steps := (steps ++ [VDict
     [("step", VInt 3);
      ("title", VStr "Compute u₁");
      ("formula", VStr "u₁ = e × w mod n");
      ("substitution",
        VStr ("u₁ = " ++ Py.str e ++ " × " ++ Py.str w ++ " mod " ++ Py.str n));
      ("result", VInt u1);
      ("explanation", VStr "First verification component combines message hash and w.")]])%list in
   (* STEP 4: Compute u2 = r * w mod n *)
   u2 <- lift (Py.mod_ (r * w) n) ;;
   let steps := (steps ++ [VDict
     [("step", VInt 4);
      ("title", VStr "Compute u₂");
      ("formula", VStr "u₂ = r × w mod n");
      ("substitution",
        VStr ("u₂ = " ++ Py.str r ++ " × " ++ Py.str w ++ " mod " ++ Py.str n));
      ("result", VInt u2);
      ("explanation", VStr "Second verification component combines r and w.")]])%list in
   (* STEP 5: Compute u1 × G *)
   u1G_pair <- EllipticCurve.scalar_multiply curve u1 G true ;;
   let '(u1G, u1G_steps) := u1G_pair in
   match u1G with
   | None =>
       ret (VDict
         [("error", VStr "u₁×G resulted in point at infinity");
          ("steps", VList steps)])
   | Some _ =>
   let steps := (steps ++ [VDict
     [("step", VInt 5);
      ("title", VStr "Compute u₁×G");
      ("formula", VStr "u₁ × G");
      ("substitution",
        VStr (Py.str u1 ++ " × (" ++ Py.str Gx ++ ", " ++ Py.str Gy ++ ")"));
      ("result", point_value u1G);
      ("scalar_multiplication_steps", VList (first_five u1G_steps));
      ("explanation", VStr "First point component for verification.")]])%list in
   (* STEP 6: Compute u2 × Q *)
   u2Q_pair <- EllipticCurve.scalar_multiply curve u2 Q true ;;
   let '(u2Q, u2Q_steps) := u2Q_pair in
   match u2Q with
   | None =>
       ret (VDict
         [("error", VStr "u₂×Q resulted in point at infinity");
          ("steps", VList steps)])
   | Some _ =>
   let steps := (steps ++ [VDict
     [("step", VInt 6);
      ("title", VStr "Compute u₂×Q");
      ("formula", VStr "u₂ × Q");
      ("substitution",
        VStr (Py.str u2 ++ " × (" ++ Py.str Qx ++ ", " ++ Py.str Qy ++ ")"));
      ("result", point_value u2Q);
      ("scalar_multiplication_steps", VList (first_five u2Q_steps));
      ("explanation", VStr "Second point component for verification.")]])%list in
   (* STEP 7: Compute (x, y) = u1×G + u2×Q *)
   verification_point <- EllipticCurve.point_add curve u1G u2Q ;;
   match verification_point with
   | None =>
       ret (VDict
         [("error", VStr "u₁×G + u₂×Q resulted in point at infinity");
          ("steps", VList steps)])
   | Some (vx, vy) =>
   let steps := (steps ++ [VDict
     [("step", VInt 7);
      ("title", VStr "Compute Verification Point");
      ("formula", VStr "(x, y) = u₁×G + u₂×Q");
      ("substitution",
        VStr ("(x, y) = " ++ point_str u1G ++ " + " ++ point_str u2Q));
      ("result", point_value verification_point);
      ("explanation", VStr "Add the two point components to get the verification point.")]])%list in
   (* STEP 8: Verify x mod n = r *)
   v <- lift (Py.mod_ vx n) ;;
   let is_valid := v =? r in
   let steps := (steps ++ [VDict
     [("step", VInt 8);
      ("title", VStr "Verify Signature");
      ("formula", VStr "x mod n = r?");
      ("substitution",
        VStr (Py.str vx ++ " mod " ++ Py.str n ++ " = " ++ Py.str r ++ "?"));
      ("result", VStr (if is_valid then "✅ VALID" else "❌ INVALID"));
      ("verification_value", VInt v);
      ("expected_value", VInt r);
      ("explanation", VStr "Signature is valid if x-coordinate mod n equals r. This proves the signature was created by someone with the private key.")]])%list in
   ret (VDict
     [("success", VBool true);
      ("valid", VBool is_valid);
      ("message",
        VStr (if is_valid then "✅ Signature is VALID" else "❌ Signature is INVALID"));
      ("verification_value", VInt v);
      ("expected_value", VInt r);
      ("verification_point", VDict [("x", VInt vx); ("y", VInt vy)]);
      ("steps", VList steps);
      ("warning", VStr ecdsa_warning)])
   end
   end
   end)%M.

(* ===================================================================== *)
(** * Flask API routes                                                    *)
(* ===================================================================== *)

(** A response: the JSON body and the HTTP status. *)
Definition response : Type := (value * Z)%type.

(** The body shared by the four educational routes, applied to what the
    engine call produced:
<<
    try:
        result = engine(params)
        if 'error' in result and not result.get('success', False):
            return jsonify(result), 400
        return jsonify(result)
    except Exception as e:
        return jsonify({'error': str(e)}), 400
>> *)
Definition api_route (outcome : res value) : response :=
  match outcome with
  | Ok result =>
      let d := match result with VDict d => d | _ => [] end in
      if dict_mem "error" d && negb (dict_get_bool "success" d)
      then (result, 400)
      else (result, 200)
  | Raise e => (VDict [("error", VStr (Py.str_exn e))], 400)
  end.

Definition api_dsa_educational_sign (p q g x k : Z) (message : string) : response :=
  api_route (dsa_educational_sign p q g x k message).

Definition api_dsa_educational_verify (p q g y r s : Z) (message : string)
  : response :=
  api_route (dsa_educational_verify p q g y r s message).

Definition api_ecdsa_educational_sign (a b p Gx Gy n d k : Z) (message : string)
  : response :=
  api_route (result_of (ecdsa_educational_sign a b p Gx Gy n d k message)).

Definition api_ecdsa_educational_verify (a b p Gx Gy n Qx Qy r s : Z)
    (message : string) : response :=
  api_route (result_of (ecdsa_educational_verify a b p Gx Gy n Qx Qy r s message)).

(** Reading a result dictionary. *)
Definition result_dict (v : value) : dict :=
  match v with VDict d => d | _ => [] end.

Definition steps_of (v : value) : list value :=
  match dict_get "steps" (result_dict v) with
  | Some (VList l) => l
  | _ => []
  end.

(** The ['step'] index of each trace record. *)
Definition step_indices (steps : list value) : list (option value) :=
  map (fun st => dict_get "step" (result_dict st)) steps.

(** The ['result'] entry of each trace record. *)
Definition step_results (steps : list value) : list (option value) :=
  map (fun st => dict_get "result" (result_dict st)) steps.

Definition is_success (v : value) : Prop :=
  dict_get "success" (result_dict v) = Some (VBool true).

(** The result dictionary of a successful ECDSA signature. *)
Definition ecdsa_signed (v : value) (r s : Z) (Q : Z * Z) : Prop :=
  is_success v /\
  dict_get "signature" (result_dict v) = Some (VDict [("r", VInt r); ("s", VInt s)]) /\
  dict_get "public_key" (result_dict v)
    = Some (VDict [("Qx", VInt (fst Q)); ("Qy", VInt (snd Q))]).

(** The result dictionary of a verification that found the signature valid. *)
Definition verified_valid (v : value) : Prop :=
  is_success v /\ dict_get "valid" (result_dict v) = Some (VBool true).

(** Which sign the first component takes: the recursion keeps the sign of
    the first argument, and the base case hands back [b] untouched. *)
Definition negative_run (a b : Z) : bool :=
  (a <? 0) || ((a =? 0) && (b <? 0)).

Definition signed_gcd (a b : Z) : Z :=
  if negative_run a b then - Z.gcd a b else Z.gcd a b.

(** Congruence modulo [p]. *)
Definition cong (p u v : Z) : Prop := (p | u - v).

(** The curve equation [y² = x³ + ax + b (mod p)]; the point at infinity
    is on every curve. *)
Definition on_curve (c : EllipticCurve.t) (P : point) : Prop :=
  match P with
  | None => True
  | Some (x, y) =>
      cong (EllipticCurve.p c) (y * y)
           (x ^ 3 + EllipticCurve.a c * x + EllipticCurve.b c)
  end.

(** Coordinates are residues: both lie in [[0, p)]. *)
Definition in_range (c : EllipticCurve.t) (P : point) : Prop :=
  match P with
  | None => True
  | Some (x, y) => 0 <= x < EllipticCurve.p c /\ 0 <= y < EllipticCurve.p c
  end.

(** The point [point_add] builds from the slope [num / den], given the
    inverse [inv] of the denominator. *)
Definition slope_point (p x1 y1 x2 num inv : Z) : point :=
  let lam := (num * inv) mod p in
  let x3 := (lam * lam - x1 - x2) mod p in
  let y3 := (lam * (x1 - x3) - y1) mod p in
  Some (x3, y3).

(** The four ways [point_add] runs on two finite points with residue
    coordinates. *)
Inductive point_add_run (a p : Z) (x1 y1 x2 y2 : Z) (log : list event)
  : res point * list event -> Prop :=
| RunVerticalTangent :
    x1 = x2 -> y1 = y2 -> y1 = 0 ->
    point_add_run a p x1 y1 x2 y2 log (Ok None, log)
| RunTangent (inv : Z) :
    x1 = x2 -> y1 = y2 -> y1 <> 0 ->
    ((2 * y1) mod p) mod p <> 0 ->
    mod_inverse ((2 * y1) mod p) p = Ok inv ->
    cong p ((2 * y1) mod p * inv) 1 ->
    point_add_run a p x1 y1 x2 y2 log
      (Ok (slope_point p x1 y1 x2 ((3 * x1 * x1 + a) mod p) inv),
       (log ++ [InvRequest ((2 * y1) mod p) p])%list)
| RunVerticalChord :
    x1 = x2 -> y1 <> y2 ->
    point_add_run a p x1 y1 x2 y2 log (Ok None, log)
| RunChord (inv : Z) :
    x1 <> x2 ->
    ((x2 - x1) mod p) mod p <> 0 ->
    mod_inverse ((x2 - x1) mod p) p = Ok inv ->
    cong p ((x2 - x1) mod p * inv) 1 ->
    point_add_run a p x1 y1 x2 y2 log
      (Ok (slope_point p x1 y1 x2 ((y2 - y1) mod p) inv),
       (log ++ [InvRequest ((x2 - x1) mod p) p])%list).

(** The mirror image of a point: same abscissa, opposite ordinate. *)
Definition mirror (c : EllipticCurve.t) (P : point) : point :=
  match P with
  | None => None
  | Some (x, y) => Some (x, (EllipticCurve.p c - y) mod EllipticCurve.p c)
  end.

(** What is left of a traced scalar multiplication once the steps are
    dropped. *)
Definition drop_steps (r : res (point * list value) * list event)
  : res point * list event :=
  (match fst r with
   | Ok (R, _) => Ok R
   | Raise e => Raise e
   end, snd r).

(** A logged inversion request, if any, is on a nonzero denominator. *)
Definition sound_event (c : EllipticCurve.t) (ev : event) : Prop :=
  match ev with
  | InvRequest d m => m = EllipticCurve.p c /\ d mod EllipticCurve.p c <> 0
  | ScalarMul _ _ => True
  end.

(** The two kinds of dictionary an engine returns: a success payload, which
    has no ['error'] entry, or an error message with the trace so far. *)
Definition result_shape (v : value) : Prop :=
  (is_success v /\ dict_mem "error" (result_dict v) = false) \/
  (exists msg steps, v = VDict [("error", VStr msg); ("steps", VList steps)]).

(** The four educational engine operations, each with the answer of the
    route that wraps it. *)
Inductive engine_call : res value -> response -> Prop :=
| CallDsaSign (p q g x k : Z) (message : string) :
    engine_call (dsa_educational_sign p q g x k message)
                (api_dsa_educational_sign p q g x k message)
| CallDsaVerify (p q g y r s : Z) (message : string) :
    engine_call (dsa_educational_verify p q g y r s message)
                (api_dsa_educational_verify p q g y r s message)
| CallEcdsaSign (a b p Gx Gy n d k : Z) (message : string) :
    engine_call (result_of (ecdsa_educational_sign a b p Gx Gy n d k message))
                (api_ecdsa_educational_sign a b p Gx Gy n d k message)
| CallEcdsaVerify (a b p Gx Gy n Qx Qy r s : Z) (message : string) :
    engine_call (result_of (ecdsa_educational_verify a b p Gx Gy n Qx Qy r s message))
                (api_ecdsa_educational_verify a b p Gx Gy n Qx Qy r s message).

(** Eight 32-bit words: the shape of a SHA-256 state. *)
Definition word_list (l : list Z) : Prop :=
  List.length l = 8%nat /\ Forall (fun w => 0 <= w < 2 ^ 32) l.

(** An odd prime modulus. *)
Definition odd_prime (p : Z) : Prop := Z.prime p /\ p <> 2.

(** A logged inversion request on a denominator that is not zero modulo
    the curve's modulus. *)
Definition nonzero_request (c : EllipticCurve.t) (ev : event) : Prop :=
  match ev with
  | InvRequest d m => m = EllipticCurve.p c /\ d mod EllipticCurve.p c <> 0
  | ScalarMul _ _ => False
  end.

(* ===================================================================== *)
(** * Properties of the mathematical utilities                            *)
(* ===================================================================== *)

(** Known digests: the empty message and the message of the ECDSA example. *)
Example hash_message_empty :
  Py.hex (hash_message "") =
  "0xe3b0c44298fc1c149afbf4c8996fb92427ae41e4649b934ca495991b7852b855".
Proof. vm_compute. reflexivity. Qed.

Example hash_message_Test :
  Py.hex (hash_message "Test") =
  "0x532eaabd9574880dbf76b9b8cc00832c20a6ec113d682299550d7a6e0f345e25".
Proof. vm_compute. reflexivity. Qed.

Section ExtendedGcd.

(** The defining equation of [extended_gcd], as the source reads. *)
Lemma extended_gcd_eqn (a b : Z) :
  extended_gcd a b =
  if a =? 0 then (b, 0, 1)
  else let '(gcd, x1, y1) := extended_gcd (b mod a) a in
       (gcd, y1 - (b / a) * x1, x1).
Proof.
  funelim (extended_gcd a b).
  - subst. reflexivity.
  - destruct (Z.eqb_spec a 0) as [E | _]; [contradiction | reflexivity].
Qed.

Lemma signed_gcd_step (a b : Z) :
  a <> 0 -> signed_gcd (b mod a) a = signed_gcd a b.
Proof.
  intro Ha. unfold signed_gcd, negative_run.
  rewrite (Z.gcd_mod b a Ha).
  pose proof (Z.mod_bound_or b a Ha) as Hb.
  destruct (Z.ltb_spec a 0); destruct (Z.ltb_spec (b mod a) 0);
    destruct (Z.eqb_spec (b mod a) 0); destruct (Z.eqb_spec a 0);
    simpl; try reflexivity; lia.
Qed.

Lemma extended_gcd_correct (a b : Z) :
  exists g x y,
    extended_gcd a b = (g, x, y) /\ a * x + b * y = g /\ g = signed_gcd a b.
Proof.
  revert b.
  induction a as [a IH] using (well_founded_induction abs_lt_wf).
  intro b. rewrite extended_gcd_eqn.
  destruct (Z.eqb_spec a 0) as [-> | Ha].
  - exists b, 0, 1. repeat split; [ring |].
    unfold signed_gcd, negative_run. rewrite Z.gcd_0_l. simpl.
    destruct (Z.ltb_spec b 0); lia.
  - assert (Hlt : abs_lt (b mod a) a).
    { unfold abs_lt. pose proof (Z.mod_bound_or b a Ha). lia. }
    destruct (IH (b mod a) Hlt a) as (g & x1 & y1 & Heq & Hbez & Hg).
    rewrite Heq. exists g, (y1 - b / a * x1), x1.
    repeat split.
    + rewrite <- Hbez. rewrite (Z.mod_eq b a Ha). ring.
    + rewrite Hg. apply signed_gcd_step. exact Ha.
Qed.

Lemma signed_gcd_abs (a b : Z) : Z.abs (signed_gcd a b) = Z.gcd a b.
Proof.
  unfold signed_gcd. pose proof (Z.gcd_nonneg a b).
  destruct (negative_run a b); lia.
Qed.

Lemma signed_gcd_nonneg_args (a b : Z) :
  0 <= a -> 0 < b -> signed_gcd a b = Z.gcd a b.
Proof.
  intros Ha Hb. unfold signed_gcd, negative_run.
  destruct (Z.ltb_spec a 0); destruct (Z.ltb_spec b 0);
    destruct (Z.eqb_spec a 0); simpl; try reflexivity; lia.
Qed.

End ExtendedGcd.

Section ModInverse.

Variables a m : Z.
Hypothesis m_gt_1 : 1 < m.

Lemma mod_inverse_unfold :
  mod_inverse a m =
  let '(gcd, x, _) := extended_gcd (a mod m) m in
  if negb (gcd =? 1) then
    Raise (ValueError ("Modular inverse does not exist for "
                         ++ Py.str a ++ " mod " ++ Py.str m))
  else Ok ((x mod m + m) mod m).
Proof.
  unfold mod_inverse, Py.mod_.
  destruct (Z.eqb_spec m 0); [lia | reflexivity].
Qed.

Lemma mod_inverse_coprime :
  Z.gcd (a mod m) m = 1 ->
  exists x, mod_inverse a m = Ok x /\ 0 <= x < m /\ (a * x) mod m = 1.
Proof.
  intro Hg. rewrite mod_inverse_unfold.
  destruct (extended_gcd_correct (a mod m) m) as (g & x & y & Heq & Hbez & Hsg).
  rewrite Heq.
  rewrite signed_gcd_nonneg_args in Hsg
    by (pose proof (Z.mod_pos_bound a m); lia).
  rewrite Hg in Hsg. rewrite Hsg in Hbez |- *.
  rewrite Z.eqb_refl. cbn [negb].
  exists ((x mod m + m) mod m).
  split; [reflexivity |].
  split; [apply Z.mod_pos_bound; lia |].
  rewrite <- Z.add_mod_idemp_r, Z.mod_same, Z.add_0_r, Z.mod_mod by lia.
  rewrite Z.mul_mod_idemp_r by lia.
  rewrite <- Z.mul_mod_idemp_l by lia.
  replace (a mod m * x) with (1 + (- y) * m) by lia.
  rewrite Z.mod_add by lia. apply Z.mod_1_l. lia.
Qed.

Lemma mod_inverse_not_coprime :
  Z.gcd (a mod m) m <> 1 ->
  mod_inverse a m =
  Raise (ValueError ("Modular inverse does not exist for "
                       ++ Py.str a ++ " mod " ++ Py.str m)).
Proof.
  intro Hg. rewrite mod_inverse_unfold.
  destruct (extended_gcd_correct (a mod m) m) as (g & x & y & Heq & Hbez & Hsg).
  rewrite Heq.
  rewrite signed_gcd_nonneg_args in Hsg
    by (pose proof (Z.mod_pos_bound a m); lia).
  destruct (Z.eqb_spec g 1); [congruence | reflexivity].
Qed.

(** An inverse modulo [m] is unique among the residues. *)
Lemma inverse_unique (x x' : Z) :
  0 <= x < m -> 0 <= x' < m ->
  (a * x) mod m = 1 -> (a * x') mod m = 1 -> x' = x.
Proof.
  intros Hx Hx' H1 H2.
  assert (E : (x' * (a * x)) mod m = (x * (a * x')) mod m)
    by (f_equal; ring).
  rewrite <- Z.mul_mod_idemp_r, H1 in E by lia.
  rewrite <- (Z.mul_mod_idemp_r x), H2 in E by lia.
  rewrite !Z.mul_1_r, !Z.mod_small in E by lia.
  exact E.
Qed.

Lemma mod_inverse_normalizes (x : Z) :
  mod_inverse a m = Ok x <-> mod_inverse (a mod m) m = Ok x.
Proof.
  unfold mod_inverse, Py.mod_.
  destruct (Z.eqb_spec m 0); [lia |]. simpl.
  rewrite Z.mod_mod by lia.
  destruct (extended_gcd (a mod m) m) as [[g u] v].
  destruct (negb (g =? 1)); split; intro H; (discriminate || exact H).
Qed.

End ModInverse.

(** What [extended_gcd] computes on all integers [a] and [b]: a triple
    [(g, x, y)] with [a*x + b*y = g] and [|g| = gcd(a, b)]; [g] is
    [gcd(a, b)] itself unless [a < 0], or [a = 0] and [b < 0], where it is
    [-gcd(a, b)].  In the base case [a = 0] the triple is [(b, 0, 1)].  The
    docstring promises [g = gcd(a, b)]: the sign is where the code departs
    from it (see below). *)
Theorem extended_gcd_bezout (a b : Z) :
  exists g x y,
    extended_gcd a b = (g, x, y) /\
    a * x + b * y = g /\
    Z.abs g = Z.gcd a b /\
    g = (if (a <? 0) || ((a =? 0) && (b <? 0))
         then - Z.gcd a b else Z.gcd a b) /\
    extended_gcd 0 b = (b, 0, 1).
Proof.
  destruct (extended_gcd_correct a b) as (g & x & y & Heq & Hbez & Hsg).
  exists g, x, y.
  split; [exact Heq |]. split; [exact Hbez |].
  split; [rewrite Hsg; apply signed_gcd_abs |].
  split; [exact Hsg |].
  rewrite extended_gcd_eqn. reflexivity.
Qed.

(** C10, where the code departs from it: [extended_gcd] is documented to
    return [(gcd, x, y)] with [a*x + b*y = gcd(a, b)], and C10 states
    [a*x + b*y = g = gcd(a, b)] for all integers.  [extended_gcd(0, -5)]
    returns [(-5, 0, 1)], whose first component is not [gcd(0, -5) = 5], and
    [extended_gcd(-4, 6)] returns [(-2, 2, 1)], not [gcd(-4, 6) = 2]: the
    recursion never normalises the sign. *)
Lemma extended_gcd_negative_operand :
  extended_gcd 0 (-5) = (-5, 0, 1) /\
  ~ (exists g x y,
       extended_gcd 0 (-5) = (g, x, y) /\
       0 * x + (-5) * y = g /\ g = Z.gcd 0 (-5)) /\
  extended_gcd (-4) 6 = (-2, 2, 1) /\
  Z.gcd (-4) 6 = 2.
Proof.
  split; [reflexivity |].
  split; [| split; [vm_compute; reflexivity | reflexivity]].
  intros (g & x & y & Heq & _ & Hg).
  rewrite extended_gcd_eqn in Heq. simpl in Heq.
  injection Heq as <- _ _. discriminate Hg.
Qed.

(** C4: for [m > 1], [mod_inverse(a, m)] works on [a mod m]; when
    [gcd(a mod m, m) = 1] it returns the unique [x] in [[0, m)] with
    [(a * x) mod m = 1], and otherwise it raises the "no inverse" error;
    [mod_inverse(4, 8)] raises. *)
Theorem mod_inverse_spec (a m : Z) :
  1 < m ->
  (Z.gcd (a mod m) m = 1 ->
   exists x,
     mod_inverse a m = Ok x /\
     mod_inverse (a mod m) m = Ok x /\
     0 <= x < m /\
     (a * x) mod m = 1 /\
     (forall x', 0 <= x' < m -> (a * x') mod m = 1 -> x' = x)) /\
  (Z.gcd (a mod m) m <> 1 ->
   mod_inverse a m =
   Raise (ValueError ("Modular inverse does not exist for "
                        ++ Py.str a ++ " mod " ++ Py.str m))) /\
  mod_inverse 4 8 =
  Raise (ValueError "Modular inverse does not exist for 4 mod 8").
Proof.
  intro Hm. split; [| split].
  - intro Hg.
    destruct (mod_inverse_coprime a m Hm Hg) as (x & Hx & Hr & Hinv).
    exists x. repeat split; try tauto.
    + apply (mod_inverse_normalizes a m Hm). exact Hx.
    + intros x' Hx' Hinv'. exact (inverse_unique a m Hm x x' Hr Hx' Hinv Hinv').
  - apply mod_inverse_not_coprime. exact Hm.
  - reflexivity.
Qed.

Lemma mod_inverse_spec_witness :
  (exists x,
     mod_inverse 3 7 = Ok x /\ mod_inverse (3 mod 7) 7 = Ok x /\
     0 <= x < 7 /\ (3 * x) mod 7 = 1 /\
     (forall x', 0 <= x' < 7 -> (3 * x') mod 7 = 1 -> x' = x)) /\
  mod_inverse 6 9 =
  Raise (ValueError "Modular inverse does not exist for 6 mod 9").
Proof.
  split.
  - apply (proj1 (mod_inverse_spec 3 7 ltac:(lia))). reflexivity.
  - apply (proj1 (proj2 (mod_inverse_spec 6 9 ltac:(lia)))).
    vm_compute. discriminate.
Defined.

(* ===================================================================== *)
(** * Properties of the DSA engine                                        *)
(* ===================================================================== *)

Lemma pow_mod_nonneg (base exp m : Z) :
  0 <= exp -> m <> 0 -> pow_mod base exp m = Ok (base ^ exp mod m).
Proof.
  intros He Hm. unfold pow_mod, Py.pow3.
  destruct (Z.eqb_spec m 0); [contradiction |].
  destruct (Z.ltb_spec exp 0); [lia | reflexivity].
Qed.

Lemma mod_ok (a m : Z) : m <> 0 -> Py.mod_ a m = Ok (a mod m).
Proof.
  intro Hm. unfold Py.mod_. destruct (Z.eqb_spec m 0); [contradiction | reflexivity].
Qed.

Lemma mod_ok_inv (a m v : Z) : Py.mod_ a m = Ok v -> m <> 0 /\ v = a mod m.
Proof.
  unfold Py.mod_. destruct (Z.eqb_spec m 0); [discriminate |].
  intro H. injection H as <-. split; [assumption | reflexivity].
Qed.

(** One step through a [bind]: case analysis on the computation bound. *)
Ltac step_bind :=
  match goal with
  | |- context [Py.bind ?m _] =>
      let E := fresh "E" in destruct m eqn:E; cbn [Py.bind]
  | H : context [Py.bind ?m _] |- _ =>
      let E := fresh "E" in destruct m eqn:E; cbn [Py.bind] in H
  end.

(** Run the reductions [%] whose modulus is known not to be zero. *)
Ltac run_mods := repeat (rewrite mod_ok by assumption; cbn [Py.bind]).

(** The same inside the instrumented monad, once [bindM] and [lift] are
    unfolded. *)
Ltac run_lifted := repeat (rewrite mod_ok by assumption; cbv beta iota).

(** Case analysis on a zero test of the engine. *)
Ltac step_if :=
  match goal with
  | |- context [if ?a =? 0 then _ else _] => destruct (Z.eqb_spec a 0)
  | H : context [if ?a =? 0 then _ else _] |- _ => destruct (Z.eqb_spec a 0)
  end.

Section DsaSign.

Variables p q g x k : Z.
Variable message : string.

(** Every call that reports success carries four trace records. *)
Lemma dsa_sign_success_trace (v : value) :
  dsa_educational_sign p q g x k message = Ok v ->
  is_success v ->
  step_indices (steps_of v) =
    [Some (VInt 1); Some (VInt 2); Some (VInt 4); Some (VInt 5)].
Proof.
  unfold dsa_educational_sign. intros H Hs.
  repeat (step_bind || step_if); try discriminate;
    injection H as <-; first [discriminate Hs | reflexivity].
Qed.

(** The trace when [r = 0]: the records of stages 1 and 2. *)
Lemma dsa_sign_r_zero (y gk : Z) :
  pow_mod g x p = Ok y -> q <> 0 -> pow_mod g k p = Ok gk ->
  gk mod q = 0 ->
  exists steps,
    dsa_educational_sign p q g x k message =
      Ok (VDict
            [("error", VStr "Invalid signature: r = 0. Choose a different k.");
             ("steps", VList steps)]) /\
    step_indices steps = [Some (VInt 1); Some (VInt 2)] /\
    step_results steps =
      [Some (VInt y); Some (VInt (hash_message message mod q))].
Proof.
  intros Hy Hq Hgk Hr. unfold dsa_educational_sign.
  rewrite Hy. cbn [Py.bind]. run_mods.
  rewrite Hgk. cbn [Py.bind]. run_mods.
  rewrite Hr. rewrite Z.eqb_refl.
  eexists. split; [reflexivity |]. split; reflexivity.
Qed.

(** The trace when [s = 0]: the records of stages 1, 2, 4 and 5. *)
Lemma dsa_sign_s_zero (y gk k_inv : Z) :
  pow_mod g x p = Ok y -> q <> 0 -> pow_mod g k p = Ok gk ->
  gk mod q <> 0 ->
  mod_inverse k q = Ok k_inv ->
  (k_inv * (hash_message message + x * (gk mod q))) mod q = 0 ->
  exists steps,
    dsa_educational_sign p q g x k message =
      Ok (VDict
            [("error", VStr "Invalid signature: s = 0. Choose a different k.");
             ("steps", VList steps)]) /\
    step_indices steps =
      [Some (VInt 1); Some (VInt 2); Some (VInt 4); Some (VInt 5)] /\
    step_results steps =
      [Some (VInt y); Some (VInt (hash_message message mod q));
       Some (VInt k_inv); Some (VInt 0)].
Proof.
  intros Hy Hq Hgk Hr Hinv Hs. unfold dsa_educational_sign.
  rewrite Hy. cbn [Py.bind]. run_mods.
  rewrite Hgk. cbn [Py.bind]. run_mods.
  destruct (Z.eqb_spec (gk mod q) 0) as [E | _]; [contradiction |].
  rewrite Hinv. cbn [Py.bind]. run_mods.
  assert (Hs' : (k_inv * ((hash_message message mod q + x * (gk mod q) mod q) mod q))
                mod q = 0).
  { rewrite <- Z.add_mod by assumption.
    rewrite Z.mul_mod_idemp_r by assumption. exact Hs. }
  rewrite Hs'. rewrite Z.eqb_refl.
  eexists. split; [reflexivity |]. split; reflexivity.
Qed.

(** A nonce without inverse modulo [q]: the exception leaves the engine. *)
Lemma dsa_sign_no_inverse (y gk : Z) :
  pow_mod g x p = Ok y -> 1 < q -> pow_mod g k p = Ok gk ->
  gk mod q <> 0 ->
  Z.gcd (k mod q) q <> 1 ->
  dsa_educational_sign p q g x k message =
    Raise (ValueError ("Modular inverse does not exist for "
                         ++ Py.str k ++ " mod " ++ Py.str q)).
Proof.
  intros Hy Hq Hgk Hr Hg. unfold dsa_educational_sign.
  assert (Hq0 : q <> 0) by lia.
  rewrite Hy. cbn [Py.bind]. run_mods.
  rewrite Hgk. cbn [Py.bind]. run_mods.
  destruct (Z.eqb_spec (gk mod q) 0) as [E | _]; [contradiction |].
  rewrite (mod_inverse_not_coprime k q Hq Hg). reflexivity.
Qed.

End DsaSign.

(** What a route answers, by outcome of the engine call. *)
Lemma api_route_cases (outcome : res value) :
  (exists result status,
     outcome = Ok result /\ api_route outcome = (result, status) /\
     (status = 200 \/ status = 400)) \/
  (exists e,
     outcome = Raise e /\
     api_route outcome = (VDict [("error", VStr (Py.str_exn e))], 400)).
Proof.
  destruct outcome as [result | e].
  - left. unfold api_route.
    destruct (dict_mem "error" _ && negb _);
      eexists; eexists; split; try reflexivity; split; try reflexivity; auto.
  - right. exists e. split; reflexivity.
Qed.

(** What the code returns on every successful DSA sign call: a trace of
    exactly four records, labelled 1, 2, 4 and 5 in this order.  The block
    under the header "STEP 3: Compute r" has no [steps.append], so the
    record of stage 3 is missing from every success result. *)
Theorem dsa_sign_trace_records (p q g x k : Z) (message : string) (v : value) :
  dsa_educational_sign p q g x k message = Ok v ->
  is_success v ->
  List.length (steps_of v) = 4%nat /\
  step_indices (steps_of v) =
    [Some (VInt 1); Some (VInt 2); Some (VInt 4); Some (VInt 5)].
Proof.
  intros H Hs.
  pose proof (dsa_sign_success_trace p q g x k message v H Hs) as Hi.
  split; [| exact Hi].
  apply (f_equal (@List.length _)) in Hi.
  unfold step_indices in Hi. rewrite length_map in Hi. exact Hi.
Qed.

Lemma dsa_sign_trace_records_witness :
  exists v,
    dsa_educational_sign 23 11 4 3 7 "hi" = Ok v /\
    List.length (steps_of v) = 4%nat /\
    step_indices (steps_of v) =
      [Some (VInt 1); Some (VInt 2); Some (VInt 4); Some (VInt 5)].
Proof.
  destruct (dsa_educational_sign 23 11 4 3 7 "hi") as [v | e] eqn:E;
    [| vm_compute in E; discriminate E].
  exists v. split; [reflexivity |].
  apply (dsa_sign_trace_records 23 11 4 3 7 "hi" v E).
  vm_compute in E. injection E as <-. reflexivity.
Defined.

(** C7, where the code departs from it: C7 states that a successful DSA
    sign returns five trace records, one for each of stages 1 to 5.  The
    successful call with [p=23, q=11, g=4, x=3, k=7, message="hi"] (signature
    [r=8, s=6]) returns four trace records, not five, and none of them is the
    record of stage 3. *)
Lemma dsa_sign_trace_has_four_records :
  exists v,
    dsa_educational_sign 23 11 4 3 7 "hi" = Ok v /\
    is_success v /\
    dict_get "signature" (result_dict v)
      = Some (VDict [("r", VInt 8); ("s", VInt 6)]) /\
    List.length (steps_of v) <> 5%nat /\
    ~ In (Some (VInt 3)) (step_indices (steps_of v)).
Proof.
  eexists. split; [vm_compute; reflexivity |].
  split; [reflexivity |]. split; [reflexivity |].
  split; [vm_compute; discriminate |].
  vm_compute. intros [H | [H | [H | [H | []]]]]; discriminate H.
Qed.

(** C8: in DSA sign, when [r = (g^k mod p) mod q] is 0, or when
    [s = k_inv * (h + x*r) mod q] is 0, the call returns the "zero
    signature component" error together with the trace built so far
    (stages 1-2, respectively stages 1, 2, 4, 5), and the result holds no
    signature.  [y] and [gk] are what [pow_mod] returns for [g^x mod p] and
    [g^k mod p] (see [pow_mod_nonneg] for exponents that are not negative). *)
Theorem dsa_sign_zero_component (p q g x k : Z) (message : string) (y gk : Z) :
  pow_mod g x p = Ok y ->
  pow_mod g k p = Ok gk ->
  q <> 0 ->
  let r := gk mod q in
  let h := hash_message message in
  (r = 0 \/
   (r <> 0 /\ exists k_inv,
      mod_inverse k q = Ok k_inv /\ (k_inv * (h + x * r)) mod q = 0)) ->
  exists msg steps,
    dsa_educational_sign p q g x k message =
      Ok (VDict [("error", VStr msg); ("steps", VList steps)]) /\
    dict_get "signature" [("error", VStr msg); ("steps", VList steps)] = None /\
    ((r = 0 /\
      msg = "Invalid signature: r = 0. Choose a different k." /\
      step_indices steps = [Some (VInt 1); Some (VInt 2)] /\
      step_results steps = [Some (VInt y); Some (VInt (h mod q))]) \/
     (r <> 0 /\
      msg = "Invalid signature: s = 0. Choose a different k." /\
      step_indices steps =
        [Some (VInt 1); Some (VInt 2); Some (VInt 4); Some (VInt 5)] /\
      exists k_inv,
        mod_inverse k q = Ok k_inv /\
        step_results steps =
          [Some (VInt y); Some (VInt (h mod q));
           Some (VInt k_inv); Some (VInt 0)])).
Proof.
  intros Hy Hgk Hq r h [Hr | (Hr & k_inv & Hinv & Hs)].
  - destruct (dsa_sign_r_zero p q g x k message y gk Hy Hq Hgk Hr)
      as (steps & Heq & Hi & Hres).
    exists "Invalid signature: r = 0. Choose a different k.", steps.
    split; [exact Heq |]. split; [reflexivity |].
    left. repeat split; assumption.
  - destruct (dsa_sign_s_zero p q g x k message y gk k_inv Hy Hq Hgk Hr Hinv Hs)
      as (steps & Heq & Hi & Hres).
    exists "Invalid signature: s = 0. Choose a different k.", steps.
    split; [exact Heq |]. split; [reflexivity |].
    right. repeat split; try assumption.
    exists k_inv. split; assumption.
Qed.

Lemma dsa_sign_zero_component_witness :
  (exists steps,
     dsa_educational_sign 23 11 22 3 1 "hi" =
       Ok (VDict
             [("error", VStr "Invalid signature: r = 0. Choose a different k.");
              ("steps", VList steps)])) /\
  (exists steps,
     dsa_educational_sign 23 11 4 6 7 "hi" =
       Ok (VDict
             [("error", VStr "Invalid signature: s = 0. Choose a different k.");
              ("steps", VList steps)])).
Proof.
  split.
  - assert (Hr : 22 mod 11 = 0 \/
                 (22 mod 11 <> 0 /\ exists k_inv,
                    mod_inverse 1 11 = Ok k_inv /\
                    (k_inv * (hash_message "hi" + 3 * (22 mod 11))) mod 11 = 0))
      by (left; reflexivity).
    destruct (dsa_sign_zero_component 23 11 22 3 1 "hi" 22 22
                eq_refl eq_refl ltac:(discriminate) Hr)
      as (msg & steps & Heq & _ & [(_ & Hm & _) | (Hne & _)]).
    + exists steps. rewrite Heq, Hm. reflexivity.
    + exfalso. apply Hne. reflexivity.
  - assert (Hs : 8 mod 11 = 0 \/
                 (8 mod 11 <> 0 /\ exists k_inv,
                    mod_inverse 7 11 = Ok k_inv /\
                    (k_inv * (hash_message "hi" + 6 * (8 mod 11))) mod 11 = 0)).
    { right. split; [discriminate |]. exists 8. split; vm_compute; reflexivity. }
    destruct (dsa_sign_zero_component 23 11 4 6 7 "hi" 2 8
                eq_refl eq_refl ltac:(discriminate) Hs)
      as (msg & steps & Heq & _ & [(Hz & _) | (_ & Hm & _)]).
    + exfalso. discriminate Hz.
    + exists steps. rewrite Heq, Hm. reflexivity.
Defined.

(** ** The shape of what the engines return *)

(** Case analysis down the control flow of an engine run in [M]. *)
Ltac crunch_M H :=
  repeat (cbv beta iota in H;
          match type of H with
          | context [match ?x with Ok _ => _ | Raise _ => _ end] => destruct x eqn:?
          | context [let (_, _) := ?x in _] => destruct x as [? ?] eqn:?
          | context [if ?c then _ else _] => destruct c eqn:?
          | context [match ?x with Some _ => _ | None => _ end] => destruct x
          end).

Ltac close_shape H :=
  try discriminate H;
  first [ injection H as <- | injection H as <- _ ];
  first [ left; split; reflexivity
        | right; eexists; eexists; reflexivity ].

Lemma dsa_sign_shape (p q g x k : Z) (message : string) (v : value) :
  dsa_educational_sign p q g x k message = Ok v -> result_shape v.
Proof.
  unfold dsa_educational_sign. intro H.
  repeat (step_bind || step_if); close_shape H.
Qed.

Lemma dsa_verify_shape (p q g y r s : Z) (message : string) (v : value) :
  dsa_educational_verify p q g y r s message = Ok v -> result_shape v.
Proof.
  unfold dsa_educational_verify. intro H.
  repeat step_bind; close_shape H.
Qed.

Lemma ecdsa_sign_shape (a b p Gx Gy n d k : Z) (message : string) (v : value) :
  result_of (ecdsa_educational_sign a b p Gx Gy n d k message) = Ok v ->
  result_shape v.
Proof.
  unfold result_of.
  destruct (ecdsa_educational_sign a b p Gx Gy n d k message []) as [o log] eqn:H.
  cbn [fst]. intros ->.
  unfold ecdsa_educational_sign, bindM, lift, ret, raise in H.
  crunch_M H; close_shape H.
Qed.

Lemma ecdsa_verify_shape (a b p Gx Gy n Qx Qy r s : Z) (message : string) (v : value) :
  result_of (ecdsa_educational_verify a b p Gx Gy n Qx Qy r s message) = Ok v ->
  result_shape v.
Proof.
  unfold result_of.
  destruct (ecdsa_educational_verify a b p Gx Gy n Qx Qy r s message []) as [o log] eqn:H.
  cbn [fst]. intros ->.
  unfold ecdsa_educational_verify, bindM, lift, ret, raise in H.
  crunch_M H; close_shape H.
Qed.

Lemma api_route_status (outcome : res value) :
  (forall v, outcome = Ok v -> result_shape v) ->
  (snd (api_route outcome) = 200 <-> exists v, outcome = Ok v /\ is_success v) /\
  (snd (api_route outcome) = 200 \/ snd (api_route outcome) = 400) /\
  (forall v, outcome = Ok v -> fst (api_route outcome) = v).
Proof.
  intro Hshape. destruct outcome as [v | e].
  - destruct (Hshape v eq_refl) as [[Hs He] | (msg & steps & ->)].
    + unfold api_route. cbv zeta.
      change (match v with VDict d => d | _ => [] end) with (result_dict v).
      rewrite He. cbn [andb snd fst].
      split; [| split].
      * split; [intros _; exists v; split; [reflexivity | exact Hs] | reflexivity].
      * left. reflexivity.
      * intros v' E. injection E as <-. reflexivity.
    + cbn. split; [| split].
      * split; [discriminate |]. intros (v' & E & Hs). injection E as <-.
        discriminate Hs.
      * right. reflexivity.
      * intros v' E. injection E as <-. reflexivity.
  - cbn. split; [| split].
    + split; [discriminate |]. intros (v' & E & _). discriminate E.
    + right. reflexivity.
    + intros v' E. discriminate E.
Qed.

(** C5 (as the code has it): each of the four educational engine
    operations (DSA sign, DSA verify, ECDSA sign, ECDSA verify) either
    returns a result dictionary, which is a success payload or an error
    message together with the trace built so far, or raises; the route
    around it never aborts: it answers with the engine's dictionary (status
    200 exactly for a success payload, 400 otherwise) or, for an exception,
    with the body [{'error': str(e)}] and status 400, which carries no
    trace.  In particular, DSA sign with a nonce [k] that has no inverse
    modulo [q] (with [q > 1] and [r <> 0]) raises out of the engine, and the
    route answers 400 with the message alone. *)
Theorem dsa_sign_no_inverse_response :
  (forall (outcome : res value) (answer : response),
     engine_call outcome answer ->
     (exists v,
        outcome = Ok v /\ result_shape v /\
        fst answer = v /\
        (snd answer = 200 <-> is_success v) /\
        (snd answer = 200 \/ snd answer = 400)) \/
     (exists e,
        outcome = Raise e /\
        answer = (VDict [("error", VStr (Py.str_exn e))], 400) /\
        dict_get "steps" (result_dict (fst answer)) = None)) /\
  (forall outcome : res value,
     (exists result status,
        outcome = Ok result /\ api_route outcome = (result, status) /\
        (status = 200 \/ status = 400)) \/
     (exists e,
        outcome = Raise e /\
        api_route outcome = (VDict [("error", VStr (Py.str_exn e))], 400))) /\
  (forall (p q g x k : Z) (message : string) (y gk : Z),
     pow_mod g x p = Ok y ->
     pow_mod g k p = Ok gk ->
     1 < q ->
     gk mod q <> 0 ->
     Z.gcd (k mod q) q <> 1 ->
     let msg :=
       "Modular inverse does not exist for " ++ Py.str k ++ " mod " ++ Py.str q in
     dsa_educational_sign p q g x k message = Raise (ValueError msg) /\
     api_dsa_educational_sign p q g x k message = (VDict [("error", VStr msg)], 400) /\
     steps_of (fst (api_dsa_educational_sign p q g x k message)) = []).
Proof.
  split; [| split; [exact api_route_cases |]].
  - intros outcome answer Hcall.
    assert (H : answer = api_route outcome /\
                forall v, outcome = Ok v -> result_shape v).
    { destruct Hcall; (split; [reflexivity | intro v]).
      - apply dsa_sign_shape.
      - apply dsa_verify_shape.
      - apply ecdsa_sign_shape.
      - apply ecdsa_verify_shape. }
    destruct H as [-> Hshape].
    destruct (api_route_status outcome Hshape) as (S1 & S2 & S3).
    destruct outcome as [v | e].
    + left. exists v. split; [reflexivity |].
      split; [apply Hshape; reflexivity |].
      split; [apply S3; reflexivity |].
      split; [| exact S2].
      rewrite S1. split.
      * intros (v' & E & Hs). injection E as <-. exact Hs.
      * intro Hs. exists v. split; [reflexivity | exact Hs].
    + right. exists e. split; [reflexivity |]. split; reflexivity.
  - intros p q g x k message y gk Hy Hgk Hq Hr Hg msg.
    pose proof (dsa_sign_no_inverse p q g x k message y gk Hy Hq Hgk Hr Hg) as E.
    split; [exact E |].
    unfold api_dsa_educational_sign. rewrite E.
    split; reflexivity.
Qed.

Lemma dsa_sign_no_inverse_response_witness :
  dsa_educational_sign 23 11 4 3 11 "hi" =
    Raise (ValueError "Modular inverse does not exist for 11 mod 11") /\
  api_dsa_educational_sign 23 11 4 3 11 "hi" =
    (VDict [("error", VStr "Modular inverse does not exist for 11 mod 11")], 400).
Proof.
  destruct dsa_sign_no_inverse_response as (_ & _ & H).
  destruct (H 23 11 4 3 11 "hi" 18 1
              eq_refl eq_refl ltac:(lia) ltac:(discriminate) ltac:(discriminate))
    as (H1 & H2 & _).
  split; [exact H1 | exact H2].
Defined.

(** C5 fails as stated: DSA sign with [p=23, q=11, g=4, x=3, k=11] (a nonce
    that is 0 modulo [q]) does not return a result at all: the exception
    leaves the engine, and the two trace records built before the failure
    are lost; the route's answer has no trace either. *)
Lemma dsa_sign_no_inverse_raises :
  dsa_educational_sign 23 11 4 3 11 "hi" =
    Raise (ValueError "Modular inverse does not exist for 11 mod 11") /\
  ~ (exists v, dsa_educational_sign 23 11 4 3 11 "hi" = Ok v) /\
  dict_get "steps" (result_dict (fst (api_dsa_educational_sign 23 11 4 3 11 "hi")))
    = None.
Proof.
  assert (E : dsa_educational_sign 23 11 4 3 11 "hi" =
              Raise (ValueError "Modular inverse does not exist for 11 mod 11"))
    by (vm_compute; reflexivity).
  split; [exact E |]. split.
  - intros [v Hv]. rewrite E in Hv. discriminate Hv.
  - unfold api_dsa_educational_sign. rewrite E. reflexivity.
Qed.

(* ===================================================================== *)
(** * Properties of the elliptic curve group                              *)
(* ===================================================================== *)

Section Congruence.

Variable p : Z.

#[global] Instance cong_equiv : Equivalence (cong p).
Proof.
  split.
  - intro u. unfold cong. rewrite Z.sub_diag. apply Z.divide_0_r.
  - intros u v H. unfold cong in *.
    replace (v - u) with (- (u - v)) by ring.
    apply Z.divide_opp_r. exact H.
  - intros u v w H1 H2. unfold cong in *.
    replace (u - w) with ((u - v) + (v - w)) by ring.
    apply Z.divide_add_r; assumption.
Qed.

#[global] Instance cong_add : Proper (cong p ==> cong p ==> cong p) Z.add.
Proof.
  intros u u' Hu v v' Hv. unfold cong in *.
  replace (u + v - (u' + v')) with ((u - u') + (v - v')) by ring.
  apply Z.divide_add_r; assumption.
Qed.

#[global] Instance cong_sub : Proper (cong p ==> cong p ==> cong p) Z.sub.
Proof.
  intros u u' Hu v v' Hv. unfold cong in *.
  replace (u - v - (u' - v')) with ((u - u') - (v - v')) by ring.
  apply Z.divide_sub_r; assumption.
Qed.

#[global] Instance cong_mul : Proper (cong p ==> cong p ==> cong p) Z.mul.
Proof.
  intros u u' Hu v v' Hv. unfold cong in *.
  replace (u * v - u' * v') with ((u - u') * v + u' * (v - v')) by ring.
  apply Z.divide_add_r; [apply Z.divide_mul_l | apply Z.divide_mul_r]; assumption.
Qed.

#[global] Instance cong_opp : Proper (cong p ==> cong p) Z.opp.
Proof.
  intros u u' Hu. unfold cong in *.
  replace (- u - - u') with (- (u - u')) by ring.
  apply Z.divide_opp_r. exact Hu.
Qed.

Lemma cong_mod (u : Z) : cong p (u mod p) u.
Proof.
  unfold cong. destruct (Z.eq_dec p 0) as [-> | Hp].
  - rewrite Z.mod_0_r. rewrite Z.sub_diag. apply Z.divide_0_r.
  - rewrite (Z.mod_eq u p Hp). exists (- (u / p)). ring.
Qed.

Lemma cong_iff_mod (u v : Z) : cong p u v <-> u mod p = v mod p.
Proof.
  unfold cong. rewrite Z.cong_iff_ex. split; intros [k Hk]; exists k; lia.
Qed.

Lemma cong_zero_iff (u v : Z) : cong p u v <-> cong p (u - v) 0.
Proof. unfold cong. rewrite Z.sub_0_r. reflexivity. Qed.

Lemma cong_refl_eq (u v : Z) : u = v -> cong p u v.
Proof. intros ->. reflexivity. Qed.

(** Two residues that are congruent are equal. *)
Lemma cong_residues (u v : Z) :
  0 <= u < p -> 0 <= v < p -> cong p u v -> u = v.
Proof.
  intros Hu Hv H. apply cong_iff_mod in H.
  rewrite !Z.mod_small in H by assumption. exact H.
Qed.

Section ChordAndTangent.

Variables a b x1 y1 x2 y2 lam : Z.
Local Notation "u == v" := (cong p u v) (at level 70).

(** The tangent at [(x1, y1)] meets the curve again at [(X3, -Y3)]. *)
Lemma tangent_on_curve :
  y1 * y1 == x1 ^ 3 + a * x1 + b ->
  lam * (2 * y1) == 3 * x1 * x1 + a ->
  let X3 := lam * lam - x1 - x1 in
  let Y3 := lam * (x1 - X3) - y1 in
  Y3 * Y3 == X3 ^ 3 + a * X3 + b.
Proof.
  intros E1 T X3 Y3. apply cong_zero_iff.
  replace (Y3 * Y3 - (X3 ^ 3 + a * X3 + b))
    with ((lam * (2 * y1) - (3 * x1 * x1 + a)) * (X3 - x1)
          + (y1 * y1 - (x1 ^ 3 + a * x1 + b)))
    by (unfold Y3, X3; ring).
  rewrite T, E1. apply cong_refl_eq. ring.
Qed.

(** The chord through [(x1, y1)] and [(x2, y2)] meets the curve again at
    [(X3, -Y3)]. *)
Lemma chord_on_curve (inv : Z) :
  y1 * y1 == x1 ^ 3 + a * x1 + b ->
  y2 * y2 == x2 ^ 3 + a * x2 + b ->
  (x2 - x1) * inv == 1 ->
  lam * (x2 - x1) == y2 - y1 ->
  let X3 := lam * lam - x1 - x2 in
  let Y3 := lam * (x1 - X3) - y1 in
  Y3 * Y3 == X3 ^ 3 + a * X3 + b.
Proof.
  intros E1 E2 Hinv L X3 Y3.
  set (F1 := x1 ^ 3 + a * x1 + b - y1 * y1).
  set (F2 := x2 ^ 3 + a * x2 + b
             - (lam * (x2 - x1) + y1) * (lam * (x2 - x1) + y1)).
  set (A := a + 2 * lam * lam * x1 - 2 * lam * y1
            - (x1 * x2 + x1 * X3 + x2 * X3)).
  assert (HF1 : F1 == 0).
  { unfold F1. rewrite E1. apply cong_refl_eq. ring. }
  assert (HF2 : F2 == 0).
  { unfold F2. rewrite L.
    replace (y2 - y1 + y1) with y2 by ring.
    rewrite E2. apply cong_refl_eq. ring. }
  assert (HA : A == 0).
  { transitivity (A * ((x2 - x1) * inv)).
    - rewrite Hinv. apply cong_refl_eq. ring.
    - replace (A * ((x2 - x1) * inv)) with ((F2 - F1) * inv)
        by (unfold A, F1, F2, X3; ring).
      rewrite HF1, HF2. apply cong_refl_eq. ring. }
  apply cong_zero_iff.
  replace (Y3 * Y3 - (X3 ^ 3 + a * X3 + b)) with (- (A * (X3 - x1) + F1))
    by (unfold A, F1, Y3, X3; ring).
  rewrite HA, HF1. apply cong_refl_eq. ring.
Qed.

End ChordAndTangent.

End Congruence.

Section PointAdd.

Variables a b p : Z.
Hypothesis p_odd_prime : odd_prime p.

Let curve : EllipticCurve.t := EllipticCurve.mk a b p.

Lemma modulus_large : 2 < p.
Proof.
  destruct p_odd_prime as [Hp H2]. pose proof (Z.prime_ge_2 p Hp). lia.
Qed.

Lemma modulus_nonzero : p <> 0.
Proof. pose proof modulus_large. lia. Qed.

(** A residue that is not zero has an inverse, and [mod_inverse] finds it. *)
Lemma residue_invertible (d : Z) :
  d mod p <> 0 ->
  exists inv, mod_inverse d p = Ok inv /\ 0 <= inv < p /\ cong p (d * inv) 1.
Proof.
  intro Hd. pose proof modulus_large as Hp.
  assert (Hg : Z.gcd (d mod p) p = 1).
  { rewrite Z.gcd_comm. apply Z.coprime_prime_small.
    - exact (proj1 p_odd_prime).
    - pose proof (Z.mod_pos_bound d p). lia. }
  destruct (mod_inverse_coprime d p ltac:(lia) Hg) as (inv & E & Hr & Hi).
  exists inv. split; [exact E |]. split; [exact Hr |].
  apply cong_iff_mod. rewrite Hi. symmetry. apply Z.mod_1_l. lia.
Qed.

(** The doubling denominator of a residue [y <> 0]. *)
Lemma double_denominator (y : Z) :
  0 <= y < p -> y <> 0 -> ((2 * y) mod p) mod p <> 0.
Proof.
  intros Hy Hy0 H. pose proof modulus_large as Hp.
  rewrite Z.mod_mod in H by lia.
  apply Z.mod_divide in H; [| lia].
  apply (Z.divide_prime_mul 2 y p (proj1 p_odd_prime)) in H.
  destruct H as [D | D]; apply Z.divide_pos_le in D; lia.
Qed.

(** The chord denominator of two residues [x1 <> x2]. *)
Lemma chord_denominator (x1 x2 : Z) :
  0 <= x1 < p -> 0 <= x2 < p -> x1 <> x2 -> ((x2 - x1) mod p) mod p <> 0.
Proof.
  intros H1 H2 Hne H. pose proof modulus_large as Hp.
  rewrite Z.mod_mod in H by lia.
  apply Z.mod_divide in H; [| lia].
  destruct H as [k Hk].
  assert (k = 0) by nia. subst k. lia.
Qed.

(** How [point_add] runs on a tangent. *)
Lemma point_add_tangent_run (x y inv : Z) (log : list event) :
  y <> 0 ->
  mod_inverse ((2 * y) mod p) p = Ok inv ->
  EllipticCurve.point_add curve (Some (x, y)) (Some (x, y)) log =
    (Ok (slope_point p x y x ((3 * x * x + a) mod p) inv),
     (log ++ [InvRequest ((2 * y) mod p) p])%list).
Proof.
  intros Hy Hinv. pose proof modulus_nonzero as Hp.
  unfold EllipticCurve.point_add, point_eqb. rewrite !Z.eqb_refl. cbn [andb].
  destruct (Z.eqb_spec y 0) as [E | _]; [contradiction |].
  unfold EllipticCurve.point_add_result, bindM, lift, emit, ret, slope_point.
  cbn [curve EllipticCurve.a EllipticCurve.p].
  run_lifted. rewrite Hinv. run_lifted. reflexivity.
Qed.

(** How [point_add] runs on a chord. *)
Lemma point_add_chord_run (x1 y1 x2 y2 inv : Z) (log : list event) :
  x1 <> x2 ->
  mod_inverse ((x2 - x1) mod p) p = Ok inv ->
  EllipticCurve.point_add curve (Some (x1, y1)) (Some (x2, y2)) log =
    (Ok (slope_point p x1 y1 x2 ((y2 - y1) mod p) inv),
     (log ++ [InvRequest ((x2 - x1) mod p) p])%list).
Proof.
  intros Hx Hinv. pose proof modulus_nonzero as Hp.
  unfold EllipticCurve.point_add, point_eqb.
  destruct (Z.eqb_spec x1 x2) as [E | _]; [contradiction |]. cbn [andb].
  unfold EllipticCurve.point_add_result, bindM, lift, emit, ret, slope_point.
  cbn [curve EllipticCurve.a EllipticCurve.p].
  run_lifted. rewrite Hinv. run_lifted. reflexivity.
Qed.

Lemma point_add_finite (x1 y1 x2 y2 : Z) (log : list event) :
  0 <= x1 < p -> 0 <= y1 < p -> 0 <= x2 < p ->
  point_add_run a p x1 y1 x2 y2 log
    (EllipticCurve.point_add curve (Some (x1, y1)) (Some (x2, y2)) log).
Proof.
  intros Hx1 Hy1 Hx2.
  destruct (Z.eq_dec x1 x2) as [Ex | Ex].
  - destruct (Z.eq_dec y1 y2) as [Ey | Ey].
    + subst x2 y2. destruct (Z.eq_dec y1 0) as [E0 | E0].
      * replace (EllipticCurve.point_add curve (Some (x1, y1)) (Some (x1, y1)) log)
          with (@Ok point None, log).
        { apply RunVerticalTangent; auto. }
        unfold EllipticCurve.point_add, point_eqb. rewrite !Z.eqb_refl.
        cbn [andb]. subst y1. reflexivity.
      * pose proof (double_denominator y1 Hy1 E0) as Hd.
        destruct (residue_invertible _ Hd) as (inv & Hinv & _ & Hc).
        rewrite (point_add_tangent_run x1 y1 inv log E0 Hinv).
        apply RunTangent; auto.
    + replace (EllipticCurve.point_add curve (Some (x1, y1)) (Some (x2, y2)) log)
        with (@Ok point None, log).
      { apply RunVerticalChord; auto. }
      unfold EllipticCurve.point_add, point_eqb. subst x2.
      rewrite Z.eqb_refl. cbn [andb].
      destruct (Z.eqb_spec y1 y2) as [E | _]; [contradiction | reflexivity].
  - pose proof (chord_denominator x1 x2 Hx1 Hx2 Ex) as Hd.
    destruct (residue_invertible _ Hd) as (inv & Hinv & _ & Hc).
    rewrite (point_add_chord_run x1 y1 x2 y2 inv log Ex Hinv).
    apply RunChord; auto.
Qed.

Lemma slope_point_in_range (x1 y1 x2 num inv : Z) :
  in_range curve (slope_point p x1 y1 x2 num inv).
Proof.
  pose proof modulus_large as Hp. unfold slope_point, in_range.
  cbn [curve EllipticCurve.p].
  split; apply Z.mod_pos_bound; lia.
Qed.

Lemma cube (u : Z) : u ^ 3 = u * u * u.
Proof. ring. Qed.

Lemma tangent_point_on_curve (x y inv : Z) :
  on_curve curve (Some (x, y)) ->
  cong p ((2 * y) mod p * inv) 1 ->
  on_curve curve (slope_point p x y x ((3 * x * x + a) mod p) inv).
Proof.
  unfold on_curve, slope_point. cbn [curve EllipticCurve.a EllipticCurve.b EllipticCurve.p].
  intros E1 Hinv.
  set (lam := ((3 * x * x + a) mod p * inv) mod p).
  assert (T : cong p (lam * (2 * y)) (3 * x * x + a)).
  { unfold lam. rewrite cong_mod.
    replace ((3 * x * x + a) mod p * inv * (2 * y))
      with ((3 * x * x + a) mod p * (2 * y * inv)) by ring.
    rewrite (cong_mod p (2 * y)) in Hinv. rewrite Hinv.
    rewrite cong_mod. apply cong_refl_eq. ring. }
  pose proof (tangent_on_curve p a b x y lam E1 T) as H. cbv zeta in H.
  rewrite cube in *.
  rewrite !(cong_mod p (lam * (x - _) - y)).
  rewrite !(cong_mod p (lam * lam - x - x)).
  exact H.
Qed.

Lemma chord_slope (x1 y1 x2 y2 inv : Z) :
  cong p ((x2 - x1) mod p * inv) 1 ->
  cong p (((y2 - y1) mod p * inv) mod p * (x2 - x1)) (y2 - y1).
Proof.
  intro Hinv. rewrite cong_mod.
  replace ((y2 - y1) mod p * inv * (x2 - x1))
    with ((y2 - y1) mod p * ((x2 - x1) * inv)) by ring.
  rewrite (cong_mod p (x2 - x1)) in Hinv. rewrite Hinv.
  rewrite cong_mod. apply cong_refl_eq. ring.
Qed.

Lemma chord_point_on_curve (x1 y1 x2 y2 inv : Z) :
  on_curve curve (Some (x1, y1)) ->
  on_curve curve (Some (x2, y2)) ->
  cong p ((x2 - x1) mod p * inv) 1 ->
  on_curve curve (slope_point p x1 y1 x2 ((y2 - y1) mod p) inv).
Proof.
  unfold on_curve, slope_point. cbn [curve EllipticCurve.a EllipticCurve.b EllipticCurve.p].
  intros E1 E2 Hinv.
  pose proof (chord_slope x1 y1 x2 y2 inv Hinv) as L.
  set (lam := ((y2 - y1) mod p * inv) mod p) in *.
  rewrite (cong_mod p (x2 - x1)) in Hinv.
  pose proof (chord_on_curve p a b x1 y1 x2 y2 lam inv E1 E2 Hinv L) as H.
  cbv zeta in H. rewrite cube in *.
  rewrite !(cong_mod p (lam * (x1 - _) - y1)).
  rewrite !(cong_mod p (lam * lam - x1 - x2)).
  exact H.
Qed.

(** The membership test of the code agrees with the curve equation. *)
Lemma is_on_curve_true (P : point) :
  on_curve curve P -> EllipticCurve.is_on_curve curve P = Ok true.
Proof.
  destruct P as [[x y] |]; [| reflexivity].
  unfold on_curve, EllipticCurve.is_on_curve.
  cbn [curve EllipticCurve.a EllipticCurve.b EllipticCurve.p].
  intro H. rewrite mod_ok by exact modulus_nonzero. cbn [Py.bind].
  rewrite (Z.mod0_divide _ _ H). reflexivity.
Qed.

Lemma point_add_closed (P Q : point) (log : list event) :
  in_range curve P -> in_range curve Q ->
  on_curve curve P -> on_curve curve Q ->
  exists R log',
    EllipticCurve.point_add curve P Q log = (Ok R, log') /\
    in_range curve R /\ on_curve curve R.
Proof.
  intros RP RQ CP CQ.
  destruct P as [[x1 y1] |]; [| exists Q, log; split; [reflexivity | tauto]].
  destruct Q as [[x2 y2] |];
    [| exists (Some (x1, y1)), log; split; [reflexivity | tauto]].
  destruct RP as [Hx1 Hy1]. destruct RQ as [Hx2 Hy2].
  cbn [curve EllipticCurve.p] in Hx1, Hy1, Hx2, Hy2.
  destruct (point_add_finite x1 y1 x2 y2 log Hx1 Hy1 Hx2)
    as [ | inv Ex Ey Hy0 Hd Hinv Hc | | inv Ex Hd Hinv Hc ].
  - exists None, log. split; [reflexivity |]. split; exact I.
  - eexists; eexists. split; [reflexivity |].
    split; [apply slope_point_in_range |].
    subst x2 y2. apply tangent_point_on_curve; assumption.
  - exists None, log. split; [reflexivity |]. split; exact I.
  - eexists; eexists. split; [reflexivity |].
    split; [apply slope_point_in_range |].
    apply chord_point_on_curve; assumption.
Qed.

End PointAdd.

(** The log is ghost state: a longer initial log changes nothing else. *)
Lemma point_add_log (c : EllipticCurve.t) (P Q : point) (log : list event) :
  EllipticCurve.point_add c P Q log =
    (result_of (EllipticCurve.point_add c P Q),
     (log ++ log_of (EllipticCurve.point_add c P Q))%list).
Proof.
  unfold result_of, log_of, EllipticCurve.point_add.
  destruct P as [[x1 y1] |], Q as [[x2 y2] |];
    try (unfold ret; cbn [fst snd]; rewrite app_nil_r; reflexivity).
  destruct (point_eqb _ _).
  - destruct (y1 =? 0);
      [unfold ret; cbn [fst snd]; rewrite app_nil_r; reflexivity |].
    unfold EllipticCurve.point_add_result, bindM, lift, emit, ret.
    repeat match goal with
           | |- context [Py.mod_ ?u ?m] => destruct (Py.mod_ u m)
           | |- context [mod_inverse ?u ?m] => destruct (mod_inverse u m)
           end;
      cbn [fst snd app]; rewrite ?app_nil_r; reflexivity.
  - destruct (x1 =? x2);
      [unfold ret; cbn [fst snd]; rewrite app_nil_r; reflexivity |].
    unfold EllipticCurve.point_add_result, bindM, lift, emit, ret.
    repeat match goal with
           | |- context [Py.mod_ ?u ?m] => destruct (Py.mod_ u m)
           | |- context [mod_inverse ?u ?m] => destruct (mod_inverse u m)
           end;
      cbn [fst snd app]; rewrite ?app_nil_r; reflexivity.
Qed.

(** [scalar_multiply(2, P)] is one doubling. *)
Lemma scalar_multiply_two (c : EllipticCurve.t) (P : point) :
  result_of (EllipticCurve.scalar_multiply c 2 P false) =
  result_of (EllipticCurve.point_add c P P).
Proof.
  destruct P as [[x y] |]; [| reflexivity].
  unfold result_of at 1, EllipticCurve.scalar_multiply.
  unfold bindM at 1, emit. cbn [orb Z.eqb Z.ltb Z.compare app].
  change (Py.drop 2 (Py.bin 2)) with "10".
  change (Py.reversed "10") with ["0"%char; "1"%char].
  change (Z.of_nat (String.length "10")) with 2.
  cbn [EllipticCurve.scalar_multiply_loop].
  change (Ascii.eqb "0" "1") with false.
  change (Ascii.eqb "1" "1") with true.
  change (0 <? 2 - 1) with true. change (0 + 1 <? 2 - 1) with false.
  cbv beta iota.
  unfold bindM, ret.
  rewrite (point_add_log c (Some (x, y)) (Some (x, y))).
  destruct (result_of (EllipticCurve.point_add c (Some (x, y)) (Some (x, y))))
    as [R | e]; reflexivity.
Qed.

Lemma scalar_multiply_zero (c : EllipticCurve.t) (P : point) :
  result_of (EllipticCurve.scalar_multiply c 0 P false) = Ok None.
Proof. reflexivity. Qed.

Section Commutativity.

Variables a b p : Z.
Hypothesis p_odd_prime : odd_prime p.

Let curve : EllipticCurve.t := EllipticCurve.mk a b p.

Lemma chord_symmetric (x1 y1 x2 y2 inv inv' : Z) :
  cong p ((x2 - x1) mod p * inv) 1 ->
  cong p ((x1 - x2) mod p * inv') 1 ->
  slope_point p x1 y1 x2 ((y2 - y1) mod p) inv =
  slope_point p x2 y2 x1 ((y1 - y2) mod p) inv'.
Proof.
  intros Hinv Hinv'.
  pose proof (chord_slope p x1 y1 x2 y2 inv Hinv) as L.
  assert (Elam : ((y2 - y1) mod p * inv) mod p = ((y1 - y2) mod p * inv') mod p).
  { apply cong_iff_mod.
    rewrite (cong_mod p (x2 - x1)) in Hinv.
    rewrite (cong_mod p (x1 - x2)) in Hinv'.
    rewrite !cong_mod.
    transitivity ((y2 - y1) * inv * ((x1 - x2) * inv')).
    - rewrite Hinv'. apply cong_refl_eq. ring.
    - replace ((y2 - y1) * inv * ((x1 - x2) * inv'))
        with ((y1 - y2) * inv' * ((x2 - x1) * inv)) by ring.
      rewrite Hinv. apply cong_refl_eq. ring. }
  unfold slope_point. rewrite <- Elam.
  set (lam := ((y2 - y1) mod p * inv) mod p) in *.
  replace (lam * lam - x2 - x1) with (lam * lam - x1 - x2) by ring.
  set (x3 := (lam * lam - x1 - x2) mod p).
  f_equal. f_equal. apply cong_iff_mod.
  apply cong_zero_iff.
  replace (lam * (x1 - x3) - y1 - (lam * (x2 - x3) - y2))
    with (y2 - y1 - lam * (x2 - x1)) by ring.
  rewrite L. apply cong_refl_eq. ring.
Qed.

Lemma point_add_comm (P Q : point) :
  in_range curve P -> in_range curve Q ->
  exists R,
    result_of (EllipticCurve.point_add curve P Q) = Ok R /\
    result_of (EllipticCurve.point_add curve Q P) = Ok R.
Proof.
  intros RP RQ.
  destruct P as [[x1 y1] |]; [| exists Q; destruct Q as [[? ?] |]; split; reflexivity].
  destruct Q as [[x2 y2] |]; [| exists (Some (x1, y1)); split; reflexivity].
  destruct RP as [Hx1 Hy1]. destruct RQ as [Hx2 Hy2].
  cbn [curve EllipticCurve.p] in Hx1, Hy1, Hx2, Hy2.
  unfold result_of, curve.
  destruct (point_add_finite a b p p_odd_prime x1 y1 x2 y2 [] Hx1 Hy1 Hx2)
    as [ Ex Ey E0 | inv Ex Ey Hy0 Hd Hinv Hc | Ex Ey | inv Ex Hd Hinv Hc ];
  destruct (point_add_finite a b p p_odd_prime x2 y2 x1 y1 [] Hx2 Hy2 Hx1)
    as [ Ex' Ey' E0' | inv' Ex' Ey' Hy0' Hd' Hinv' Hc'
       | Ex' Ey' | inv' Ex' Hd' Hinv' Hc' ];
    try (exfalso; congruence);
    try (exfalso; lia).
  - exists None. split; reflexivity.
  - subst x2 y2. rewrite Hinv in Hinv'. injection Hinv' as <-.
    eexists. split; reflexivity.
  - exists None. split; reflexivity.
  - eexists. split; [reflexivity |]. cbn [fst].
    f_equal. symmetry. apply chord_symmetric; assumption.
Qed.

End Commutativity.

(** Primality by trial division, for the concrete moduli of the examples. *)
Lemma prime_by_trial (p : Z) :
  1 < p ->
  forallb (fun n => negb (p mod n =? 0))
          (map Z.of_nat (seq 2 (Z.to_nat p - 2))) = true ->
  Z.prime p.
Proof.
  intros Hp H. split; [exact Hp |].
  intros n Hn Hd. rewrite forallb_forall in H.
  assert (Hin : In n (map Z.of_nat (seq 2 (Z.to_nat p - 2)))).
  { apply in_map_iff. exists (Z.to_nat n). split; [lia |].
    apply in_seq. lia. }
  apply H in Hin. rewrite (Z.mod0_divide _ _ Hd) in Hin. discriminate Hin.
Qed.

Lemma odd_prime_97 : odd_prime 97.
Proof.
  split; [| discriminate].
  apply prime_by_trial; [lia | vm_compute; reflexivity].
Qed.

(** C2: on a curve with odd prime modulus, [point_add] of two points of the
    curve (each Infinity, or finite with coordinates in [[0, p)] satisfying
    the curve equation) returns a point of the curve: Infinity, or a finite
    [(x3, y3)] with [y3² = x3³ + a*x3 + b (mod p)]. *)
Theorem point_add_on_curve (c : EllipticCurve.t) (P Q : point) :
  odd_prime (EllipticCurve.p c) ->
  in_range c P -> in_range c Q ->
  on_curve c P -> on_curve c Q ->
  exists R,
    result_of (EllipticCurve.point_add c P Q) = Ok R /\
    in_range c R /\
    EllipticCurve.is_on_curve c R = Ok true /\
    match R with
    | None => True
    | Some (x3, y3) =>
        (y3 * y3) mod EllipticCurve.p c =
        (x3 ^ 3 + EllipticCurve.a c * x3 + EllipticCurve.b c) mod EllipticCurve.p c
    end.
Proof.
  destruct c as [a b p]. cbn [EllipticCurve.p EllipticCurve.a EllipticCurve.b].
  intros Hp RP RQ CP CQ.
  destruct (point_add_closed a b p Hp P Q [] RP RQ CP CQ)
    as (R & log' & Heq & RR & CR).
  exists R. unfold result_of. rewrite Heq.
  split; [reflexivity |]. split; [exact RR |].
  split; [apply is_on_curve_true; assumption |].
  destruct R as [[x3 y3] |]; [| exact I].
  apply cong_iff_mod. exact CR.
Qed.

Lemma point_add_on_curve_witness :
  exists R,
    result_of (EllipticCurve.point_add (EllipticCurve.mk 2 3 97)
                 (Some (3, 6)) (Some (80, 10))) = Ok R /\
    EllipticCurve.is_on_curve (EllipticCurve.mk 2 3 97) R = Ok true.
Proof.
  destruct (point_add_on_curve (EllipticCurve.mk 2 3 97) (Some (3, 6)) (Some (80, 10)))
    as (R & H1 & _ & H2 & _).
  - exact odd_prime_97.
  - simpl. lia.
  - simpl. lia.
  - apply cong_iff_mod. reflexivity.
  - apply cong_iff_mod. reflexivity.
  - exists R. split; assumption.
Defined.

(** C3 (as the code has it): on a curve with odd prime modulus and for
    points [P], [Q] that are Infinity or have coordinates in [[0, p)]
    (membership of the curve is not needed):
    [point_add(P, Infinity) == P], [point_add(P, Q) == point_add(Q, P)],
    [scalar_multiply(2, P) == point_add(P, P)] and
    [scalar_multiply(0, P) == Infinity]; every one of these calls returns. *)
Theorem curve_group_law (c : EllipticCurve.t) (P Q : point) :
  odd_prime (EllipticCurve.p c) ->
  in_range c P -> in_range c Q ->
  result_of (EllipticCurve.point_add c P None) = Ok P /\
  (exists R,
     result_of (EllipticCurve.point_add c P Q) = Ok R /\
     result_of (EllipticCurve.point_add c Q P) = Ok R) /\
  (exists D,
     result_of (EllipticCurve.scalar_multiply c 2 P false) = Ok D /\
     result_of (EllipticCurve.point_add c P P) = Ok D) /\
  result_of (EllipticCurve.scalar_multiply c 0 P false) = Ok None.
Proof.
  destruct c as [a b p]. cbn [EllipticCurve.p].
  intros Hp RP RQ.
  split; [destruct P as [[x y] |]; reflexivity |].
  split; [exact (point_add_comm a b p Hp P Q RP RQ) |].
  split; [| apply scalar_multiply_zero].
  destruct (point_add_comm a b p Hp P P RP RP) as (D & HD & _).
  exists D. split; [| exact HD].
  rewrite scalar_multiply_two. exact HD.
Qed.

Lemma curve_group_law_witness :
  result_of (EllipticCurve.point_add (EllipticCurve.mk 2 3 97)
               (Some (3, 6)) (Some (80, 10))) =
  result_of (EllipticCurve.point_add (EllipticCurve.mk 2 3 97)
               (Some (80, 10)) (Some (3, 6))) /\
  result_of (EllipticCurve.scalar_multiply (EllipticCurve.mk 2 3 97)
               2 (Some (3, 6)) false) =
  result_of (EllipticCurve.point_add (EllipticCurve.mk 2 3 97)
               (Some (3, 6)) (Some (3, 6))).
Proof.
  destruct (curve_group_law (EllipticCurve.mk 2 3 97) (Some (3, 6)) (Some (80, 10))
              odd_prime_97 ltac:(simpl; lia) ltac:(simpl; lia))
    as (_ & (R & H1 & H2) & (D & H3 & H4) & _).
  split; congruence.
Defined.

(** C3 fails as stated: on the curve [y² = x³ + 2x + 3 (mod 97)] the pairs
    [(96, 97)] and [(100, 6)] pass [is_on_curve], as [(3, 6)] does, but their
    coordinates are not reduced modulo 97.  Doubling [(96, 97)], by
    [point_add] or by [scalar_multiply(2, _)], and adding [(3, 6)] and
    [(100, 6)] in either order, raise "Modular inverse does not exist for
    0 mod 97": the guards [y1 == 0] and [x1 == x2] compare the integers, not
    their residues.  Neither equality of the claim has a value there. *)
Lemma curve_group_law_unreduced_point :
  let c := EllipticCurve.mk 2 3 97 in
  let no_inverse := ValueError "Modular inverse does not exist for 0 mod 97" in
  odd_prime (EllipticCurve.p c) /\
  EllipticCurve.is_on_curve c (Some (3, 6)) = Ok true /\
  EllipticCurve.is_on_curve c (Some (100, 6)) = Ok true /\
  EllipticCurve.is_on_curve c (Some (96, 97)) = Ok true /\
  result_of (EllipticCurve.point_add c (Some (3, 6)) (Some (100, 6)))
    = Raise no_inverse /\
  result_of (EllipticCurve.point_add c (Some (100, 6)) (Some (3, 6)))
    = Raise no_inverse /\
  result_of (EllipticCurve.scalar_multiply c 2 (Some (96, 97)) false)
    = Raise no_inverse /\
  result_of (EllipticCurve.point_add c (Some (96, 97)) (Some (96, 97)))
    = Raise no_inverse /\
  ~ (exists R,
       result_of (EllipticCurve.point_add c (Some (3, 6)) (Some (100, 6))) = Ok R /\
       result_of (EllipticCurve.point_add c (Some (100, 6)) (Some (3, 6))) = Ok R) /\
  ~ (exists D,
       result_of (EllipticCurve.scalar_multiply c 2 (Some (96, 97)) false) = Ok D /\
       result_of (EllipticCurve.point_add c (Some (96, 97)) (Some (96, 97))) = Ok D).
Proof.
  cbv zeta.
  assert (E1 : result_of (EllipticCurve.point_add (EllipticCurve.mk 2 3 97)
                            (Some (3, 6)) (Some (100, 6)))
               = Raise (ValueError "Modular inverse does not exist for 0 mod 97"))
    by (vm_compute; reflexivity).
  assert (E2 : result_of (EllipticCurve.scalar_multiply (EllipticCurve.mk 2 3 97)
                            2 (Some (96, 97)) false)
               = Raise (ValueError "Modular inverse does not exist for 0 mod 97"))
    by (vm_compute; reflexivity).
  split; [exact odd_prime_97 |].
  do 3 (split; [vm_compute; reflexivity |]).
  split; [exact E1 |].
  split; [vm_compute; reflexivity |].
  split; [exact E2 |].
  split; [vm_compute; reflexivity |].
  split.
  - intros (R & H & _). rewrite E1 in H. discriminate H.
  - intros (D & H & _). rewrite E2 in H. discriminate H.
Qed.

(** C6 (as the code has it): on a curve with odd prime modulus [p] and for
    inputs whose coordinates lie in [[0, p)], [point_add] requests a modular
    inverse only on a denominator that is not zero modulo [p] ([2*y1 mod p]
    on a tangent, [(x2 - x1) mod p] on a chord), the inverse exists, and the
    call returns a point; the vertical tangent and the vertical chord return
    Infinity without any request. *)
Theorem point_add_inverse_requests (c : EllipticCurve.t) (P Q : point) :
  odd_prime (EllipticCurve.p c) ->
  in_range c P -> in_range c Q ->
  exists R reqs,
    EllipticCurve.point_add c P Q [] = (Ok R, reqs) /\
    Forall (nonzero_request c) reqs /\
    (forall d m, In (InvRequest d m) reqs -> exists inv, mod_inverse d m = Ok inv) /\
    match P, Q with
    | Some (x1, y1), Some (x2, y2) =>
        (x1 = x2 -> y1 <> y2 \/ y1 = 0 -> R = None /\ reqs = []) /\
        (x1 = x2 -> y1 = y2 -> y1 <> 0 ->
         reqs = [InvRequest ((2 * y1) mod EllipticCurve.p c) (EllipticCurve.p c)]) /\
        (x1 <> x2 ->
         reqs = [InvRequest ((x2 - x1) mod EllipticCurve.p c) (EllipticCurve.p c)])
    | _, _ => reqs = []
    end.
Proof.
  destruct c as [a b p]. cbn [EllipticCurve.p].
  intros Hp RP RQ.
  destruct P as [[x1 y1] |];
    [| exists Q, []; repeat split; [constructor | intros d m []]].
  destruct Q as [[x2 y2] |];
    [| exists (Some (x1, y1)), []; repeat split; [constructor | intros d m []]].
  destruct RP as [Hx1 Hy1]. destruct RQ as [Hx2 Hy2].
  cbn [EllipticCurve.p] in Hx1, Hy1, Hx2, Hy2.
  destruct (point_add_finite a b p Hp x1 y1 x2 y2 [] Hx1 Hy1 Hx2)
    as [ Ex Ey E0 | inv Ex Ey Hy0 Hd Hinv Hc | Ex Ey | inv Ex Hd Hinv Hc ].
  - exists None, []. split; [reflexivity |]. split; [constructor |].
    split; [intros d m [] |]. repeat split; intros; try reflexivity; lia.
  - eexists; eexists. split; [reflexivity |].
    split; [repeat constructor; exact Hd |].
    split.
    + intros d m [E | []]. injection E as <- <-. exists inv. exact Hinv.
    + repeat split; intros; try reflexivity; lia.
  - exists None, []. split; [reflexivity |]. split; [constructor |].
    split; [intros d m [] |]. repeat split; intros; try reflexivity; lia.
  - eexists; eexists. split; [reflexivity |].
    split; [repeat constructor; exact Hd |].
    split.
    + intros d m [E | []]. injection E as <- <-. exists inv. exact Hinv.
    + repeat split; intros; try reflexivity; lia.
Qed.

Lemma point_add_inverse_requests_witness :
  exists R reqs,
    EllipticCurve.point_add (EllipticCurve.mk 2 3 97) (Some (3, 6)) (Some (3, 6)) []
      = (Ok R, reqs) /\
    Forall (nonzero_request (EllipticCurve.mk 2 3 97)) reqs.
Proof.
  destruct (point_add_inverse_requests (EllipticCurve.mk 2 3 97)
              (Some (3, 6)) (Some (3, 6))
              odd_prime_97 ltac:(simpl; lia) ltac:(simpl; lia))
    as (R & reqs & H1 & H2 & _).
  exists R, reqs. split; assumption.
Defined.

(** C6 fails as stated: on the curve [y² = x³ + 2x + 3 (mod 97)] the pair
    [(96, 97)] passes [is_on_curve], and doubling it requests the inverse
    of the denominator [2*97 mod 97 = 0], which raises. *)
Lemma point_add_zero_denominator :
  EllipticCurve.is_on_curve (EllipticCurve.mk 2 3 97) (Some (96, 97)) = Ok true /\
  EllipticCurve.point_add (EllipticCurve.mk 2 3 97) (Some (96, 97)) (Some (96, 97)) []
    = (Raise (ValueError "Modular inverse does not exist for 0 mod 97"),
       [InvRequest 0 97]) /\
  ~ Forall (nonzero_request (EllipticCurve.mk 2 3 97))
      (log_of (EllipticCurve.point_add (EllipticCurve.mk 2 3 97)
                 (Some (96, 97)) (Some (96, 97)))).
Proof.
  split; [vm_compute; reflexivity |].
  split; [vm_compute; reflexivity |].
  assert (E : log_of (EllipticCurve.point_add (EllipticCurve.mk 2 3 97)
                        (Some (96, 97)) (Some (96, 97))) = [InvRequest 0 97])
    by (vm_compute; reflexivity).
  rewrite E. intro H. inversion H as [| ev l Hev _].
  destruct Hev as [_ Hne]. apply Hne. reflexivity.
Qed.

(* ===================================================================== *)
(** * Properties of the ECDSA engine                                      *)
(* ===================================================================== *)

(** The membership test decides the curve equation when the modulus is
    not zero. *)
Lemma is_on_curve_decides (a b p x y : Z) :
  p <> 0 ->
  EllipticCurve.is_on_curve (EllipticCurve.mk a b p) (Some (x, y)) =
    Ok ((y * y - (x ^ 3 + a * x + b)) mod p =? 0) /\
  ((y * y - (x ^ 3 + a * x + b)) mod p = 0 <->
   on_curve (EllipticCurve.mk a b p) (Some (x, y))).
Proof.
  intro Hp. split.
  - unfold EllipticCurve.is_on_curve. cbn [EllipticCurve.a EllipticCurve.b EllipticCurve.p].
    rewrite mod_ok by assumption. reflexivity.
  - unfold on_curve, cong. cbn [EllipticCurve.a EllipticCurve.b EllipticCurve.p].
    apply Z.mod_divide. exact Hp.
Qed.

Lemma is_on_curve_off (a b p x y : Z) :
  p <> 0 ->
  ~ on_curve (EllipticCurve.mk a b p) (Some (x, y)) ->
  EllipticCurve.is_on_curve (EllipticCurve.mk a b p) (Some (x, y)) = Ok false.
Proof.
  intros Hp H. destruct (is_on_curve_decides a b p x y Hp) as [E Hiff].
  rewrite E. destruct (Z.eqb_spec ((y * y - (x ^ 3 + a * x + b)) mod p) 0) as [Z0 | _].
  - exfalso. apply H. apply Hiff. exact Z0.
  - reflexivity.
Qed.

Lemma is_on_curve_on (a b p x y : Z) :
  p <> 0 ->
  on_curve (EllipticCurve.mk a b p) (Some (x, y)) ->
  EllipticCurve.is_on_curve (EllipticCurve.mk a b p) (Some (x, y)) = Ok true.
Proof.
  intros Hp H. destruct (is_on_curve_decides a b p x y Hp) as [E Hiff].
  rewrite E. apply Hiff in H. rewrite H. reflexivity.
Qed.

Section OffCurve.

Variables a b p Gx Gy n : Z.
Variable message : string.
Hypothesis p_nonzero : p <> 0.

Let curve : EllipticCurve.t := EllipticCurve.mk a b p.

Lemma ecdsa_sign_generator_off_curve (d k : Z) :
  ~ on_curve curve (Some (Gx, Gy)) ->
  ecdsa_educational_sign a b p Gx Gy n d k message [] =
    (Ok (VDict
           [("error", VStr ("Generator point G=(" ++ Py.str Gx ++ ", " ++ Py.str Gy
                            ++ ") is not on the curve y² = x³ + " ++ Py.str a
                            ++ "x + " ++ Py.str b ++ " (mod " ++ Py.str p ++ ")"));
            ("steps", VList [])]),
     []).
Proof.
  intro H. unfold ecdsa_educational_sign.
  unfold bindM at 1. unfold lift at 1.
  rewrite (is_on_curve_off a b p Gx Gy p_nonzero H). reflexivity.
Qed.

Lemma ecdsa_verify_generator_off_curve (Qx Qy r s : Z) :
  ~ on_curve curve (Some (Gx, Gy)) ->
  ecdsa_educational_verify a b p Gx Gy n Qx Qy r s message [] =
    (Ok (VDict
           [("error", VStr ("Generator point G=(" ++ Py.str Gx ++ ", " ++ Py.str Gy
                            ++ ") is not on the curve"));
            ("steps", VList [])]),
     []).
Proof.
  intro H. unfold ecdsa_educational_verify.
  unfold bindM at 1. unfold lift at 1.
  rewrite (is_on_curve_off a b p Gx Gy p_nonzero H). reflexivity.
Qed.

Lemma ecdsa_verify_public_key_off_curve (Qx Qy r s : Z) :
  on_curve curve (Some (Gx, Gy)) ->
  ~ on_curve curve (Some (Qx, Qy)) ->
  ecdsa_educational_verify a b p Gx Gy n Qx Qy r s message [] =
    (Ok (VDict
           [("error", VStr ("Public key point Q=(" ++ Py.str Qx ++ ", " ++ Py.str Qy
                            ++ ") is not on the curve"));
            ("steps", VList [])]),
     []).
Proof.
  intros HG HQ. unfold ecdsa_educational_verify.
  unfold bindM at 1. unfold lift at 1.
  rewrite (is_on_curve_on a b p Gx Gy p_nonzero HG). cbn [negb].
  unfold bindM at 1. unfold lift at 1.
  rewrite (is_on_curve_off a b p Qx Qy p_nonzero HQ). reflexivity.
Qed.

End OffCurve.

(** C9: when the generator [G] (in ECDSA sign or verify) or the public
    point [Q] (in ECDSA verify) does not satisfy the curve equation, the
    call returns the curve error naming that point with an empty trace, and
    the log of curve operations is empty: no scalar multiplication (and no
    inversion) was started. *)
Theorem ecdsa_off_curve_error
    (a b p Gx Gy n d k Qx Qy r s : Z) (message : string) :
  p <> 0 ->
  (~ on_curve (EllipticCurve.mk a b p) (Some (Gx, Gy)) ->
   ecdsa_educational_sign a b p Gx Gy n d k message [] =
     (Ok (VDict
            [("error", VStr ("Generator point G=(" ++ Py.str Gx ++ ", " ++ Py.str Gy
                             ++ ") is not on the curve y² = x³ + " ++ Py.str a
                             ++ "x + " ++ Py.str b ++ " (mod " ++ Py.str p ++ ")"));
             ("steps", VList [])]),
      []) /\
   ecdsa_educational_verify a b p Gx Gy n Qx Qy r s message [] =
     (Ok (VDict
            [("error", VStr ("Generator point G=(" ++ Py.str Gx ++ ", " ++ Py.str Gy
                             ++ ") is not on the curve"));
             ("steps", VList [])]),
      [])) /\
  (on_curve (EllipticCurve.mk a b p) (Some (Gx, Gy)) ->
   ~ on_curve (EllipticCurve.mk a b p) (Some (Qx, Qy)) ->
   ecdsa_educational_verify a b p Gx Gy n Qx Qy r s message [] =
     (Ok (VDict
            [("error", VStr ("Public key point Q=(" ++ Py.str Qx ++ ", " ++ Py.str Qy
                             ++ ") is not on the curve"));
             ("steps", VList [])]),
      [])).
Proof.
  intro Hp. split.
  - intro H. split.
    + apply ecdsa_sign_generator_off_curve; assumption.
    + apply ecdsa_verify_generator_off_curve; assumption.
  - intros HG HQ. apply ecdsa_verify_public_key_off_curve; assumption.
Qed.

Lemma off_curve_3_7 : ~ on_curve (EllipticCurve.mk 2 3 97) (Some (3, 7)).
Proof.
  intro H. apply (is_on_curve_decides 2 3 97 3 7 ltac:(discriminate)) in H.
  discriminate H.
Qed.

Lemma on_curve_3_6 : on_curve (EllipticCurve.mk 2 3 97) (Some (3, 6)).
Proof. apply cong_iff_mod. reflexivity. Qed.

Lemma ecdsa_off_curve_error_witness :
  ecdsa_educational_sign 2 3 97 3 7 5 3 2 "Test" [] =
    (Ok (VDict
           [("error", VStr "Generator point G=(3, 7) is not on the curve y² = x³ + 2x + 3 (mod 97)");
            ("steps", VList [])]),
     []) /\
  ecdsa_educational_verify 2 3 97 3 7 5 80 87 3 1 "Test" [] =
    (Ok (VDict
           [("error", VStr "Generator point G=(3, 7) is not on the curve");
            ("steps", VList [])]),
     []) /\
  ecdsa_educational_verify 2 3 97 3 6 5 3 7 3 1 "Test" [] =
    (Ok (VDict
           [("error", VStr "Public key point Q=(3, 7) is not on the curve");
            ("steps", VList [])]),
     []).
Proof.
  split; [| split].
  - apply (proj1 (ecdsa_off_curve_error 2 3 97 3 7 5 3 2 80 87 3 1 "Test"
                    ltac:(discriminate))).
    exact off_curve_3_7.
  - apply (proj1 (ecdsa_off_curve_error 2 3 97 3 7 5 3 2 80 87 3 1 "Test"
                    ltac:(discriminate))).
    exact off_curve_3_7.
  - apply (proj2 (ecdsa_off_curve_error 2 3 97 3 6 5 3 2 3 7 3 1 "Test"
                    ltac:(discriminate))).
    + exact on_curve_3_6.
    + exact off_curve_3_7.
Defined.

(** C1 (as the code has it): for [a=2, b=3, p=97, G=(3,6), n=5, d=3, k=2,
    message="Test"], ECDSA sign passes the curve check, computes
    [Q = 3G = (80, 87)] and [kG = 2G = (80, 10)], finds [r = 80 mod 5 = 0]
    and returns the "zero signature component" error with the trace of steps
    0 to 3: no signature is produced, so there is nothing to verify. *)
Theorem ecdsa_tiny_curve_sign_r_zero :
  exists steps,
    ecdsa_educational_sign 2 3 97 3 6 5 3 2 "Test" [] =
      (Ok (VDict
             [("error", VStr "Invalid signature: r = 0. Choose a different k.");
              ("steps", VList steps)]),
       [ScalarMul 3 (Some (3, 6)); InvRequest 12 97; InvRequest 77 97;
        ScalarMul 2 (Some (3, 6)); InvRequest 12 97]) /\
    step_indices steps =
      [Some (VInt 0); Some (VInt 1); Some (VInt 2); Some (VInt 3)] /\
    step_results steps =
      [None; Some (VTuple [VInt 80; VInt 87]); Some (VInt 0);
       Some (VTuple [VInt 80; VInt 10])] /\
    result_of (EllipticCurve.scalar_multiply (EllipticCurve.mk 2 3 97)
                 2 (Some (3, 6)) false) = Ok (Some (80, 10)) /\
    Py.mod_ 80 5 = Ok 0.
Proof.
  eexists. split; [vm_compute; reflexivity |].
  repeat split; vm_compute; reflexivity.
Qed.

(** C1 fails as stated: with these inputs sign does not return a signature,
    so no round trip through verify exists. *)
Lemma ecdsa_tiny_curve_no_round_trip :
  ~ (exists v r s Q,
       result_of (ecdsa_educational_sign 2 3 97 3 6 5 3 2 "Test") = Ok v /\
       ecdsa_signed v r s Q /\
       exists w,
         result_of (ecdsa_educational_verify 2 3 97 3 6 5 (fst Q) (snd Q) r s "Test")
           = Ok w /\
         verified_valid w).
Proof.
  intros (v & r & s & Q & Hv & (Hs & _) & _).
  assert (E : dict_get "success"
                (result_dict
                   match result_of (ecdsa_educational_sign 2 3 97 3 6 5 3 2 "Test") with
                   | Ok u => u
                   | Raise _ => VNone
                   end) = None)
    by (vm_compute; reflexivity).
  rewrite Hv in E. unfold is_success in Hs. rewrite E in Hs. discriminate Hs.
Qed.

(* ===================================================================== *)
(** * Further properties: the DSA engine end to end                       *)
(* ===================================================================== *)

(** What a returned inverse satisfies. *)
Lemma mod_inverse_ok_inv (a m x : Z) :
  1 < m -> mod_inverse a m = Ok x -> 0 <= x < m /\ (a * x) mod m = 1.
Proof.
  intros Hm H.
  destruct (Z.eq_dec (Z.gcd (a mod m) m) 1) as [Hg | Hg].
  - destruct (mod_inverse_coprime a m Hm Hg) as (x' & E & Hr & Hi).
    rewrite E in H. injection H as <-. split; assumption.
  - rewrite (mod_inverse_not_coprime a m Hm Hg) in H. discriminate H.
Qed.

(** Congruent bases have congruent powers. *)
Lemma cong_pow (p u v n : Z) : cong p u v -> cong p (u ^ n) (v ^ n).
Proof.
  intro H. destruct (Z.neg_nonneg_cases n) as [Hn | Hn].
  - rewrite !Z.pow_neg_r by assumption. reflexivity.
  - revert n Hn. apply natlike_ind.
    + reflexivity.
    + intros n Hn IH. rewrite !Z.pow_succ_r by assumption.
      rewrite IH, H. reflexivity.
Qed.

(** When [g ^ q] is 1 modulo [p], powers of [g] depend on the exponent
    modulo [q] only. *)
Lemma pow_exponent_cong (p q g e1 e2 : Z) :
  0 < q -> cong p (g ^ q) 1 ->
  0 <= e1 -> 0 <= e2 -> cong q e1 e2 ->
  cong p (g ^ e1) (g ^ e2).
Proof.
  intros Hq Hg.
  assert (Hstep : forall e t, 0 <= e -> 0 <= t -> cong p (g ^ (e + t * q)) (g ^ e)).
  { intros e t He Ht. rewrite Z.pow_add_r by nia.
    rewrite (Z.mul_comm t q), Z.pow_mul_r by lia.
    rewrite (cong_pow p (g ^ q) 1 t Hg).
    rewrite Z.pow_1_l by assumption. apply cong_refl_eq. ring. }
  intros H1 H2 [t Ht].
  destruct (Z.le_ge_cases 0 t) as [Hpos | Hneg].
  - replace e1 with (e2 + t * q) by lia. apply Hstep; assumption.
  - symmetry. replace e2 with (e1 + (- t) * q) by lia. apply Hstep; lia.
Qed.

(** The same reductions, in a hypothesis. *)
Ltac run_mods_in H := repeat (rewrite mod_ok in H by assumption; cbn [Py.bind] in H).

Section DsaEndToEnd.

Variables p q g : Z.
Variable message : string.

(** What a successful signature is made of. *)
Lemma dsa_sign_success_inv (x k : Z) (v : value) :
  dsa_educational_sign p q g x k message = Ok v ->
  is_success v ->
  exists y gk k_inv,
    pow_mod g x p = Ok y /\ pow_mod g k p = Ok gk /\ q <> 0 /\
    gk mod q <> 0 /\ mod_inverse k q = Ok k_inv /\
    let r := gk mod q in
    let s := (k_inv * ((hash_message message mod q + (x * r) mod q) mod q)) mod q in
    s <> 0 /\
    dict_get "signature" (result_dict v)
      = Some (VDict [("r", VInt r); ("s", VInt s)]) /\
    dict_get "public_key" (result_dict v) = Some (VInt y).
Proof.
  unfold dsa_educational_sign. intros H Hs.
  destruct (pow_mod g x p) as [y |] eqn:Ey; [| discriminate H]. cbn [Py.bind] in H.
  destruct (Py.mod_ (hash_message message) q) as [hq |] eqn:Eh; [| discriminate H].
  apply mod_ok_inv in Eh. destruct Eh as [Hq ->]. cbn [Py.bind] in H.
  destruct (pow_mod g k p) as [gk |] eqn:Egk; [| discriminate H]. cbn [Py.bind] in H.
  run_mods_in H.
  destruct (Z.eqb_spec (gk mod q) 0) as [E0 | Hr];
    [injection H as <-; discriminate Hs |].
  destruct (mod_inverse k q) as [k_inv |] eqn:Einv; [| discriminate H].
  cbn [Py.bind] in H. run_mods_in H.
  match type of H with
  | (if ?s =? 0 then _ else _) = _ => destruct (Z.eqb_spec s 0) as [E0 | Hs0]
  end; [injection H as <-; discriminate Hs |].
  injection H as <-.
  exists y, gk, k_inv. repeat split; try assumption; reflexivity.
Qed.

(** How a verification runs once [w = s^(-1) mod q] exists. *)
Lemma dsa_verify_run (y r s w : Z) :
  p <> 0 -> 0 < q -> mod_inverse s q = Ok w ->
  let u1 := (hash_message message mod q * w) mod q in
  let u2 := (r * w) mod q in
  let v := ((g ^ u1 mod p * (y ^ u2 mod p)) mod p) mod q in
  exists steps,
    dsa_educational_verify p q g y r s message =
      Ok (VDict
            [("success", VBool true);
             ("valid", VBool (v =? r));
             ("message",
               VStr (if v =? r then "✅ Signature is VALID" else "❌ Signature is INVALID"));
             ("verification_value", VInt v);
             ("expected_value", VInt r);
             ("steps", VList steps);
             ("warning", VStr dsa_warning)]) /\
    step_indices steps =
      [Some (VInt 1); Some (VInt 2); Some (VInt 3); Some (VInt 4);
       Some (VInt 5); Some (VInt 6)] /\
    step_results steps =
      [Some (VInt (hash_message message mod q)); Some (VInt w);
       Some (VInt u1); Some (VInt u2); Some (VInt v);
       Some (VStr (if v =? r then "✅ VALID" else "❌ INVALID"))].
Proof.
  intros Hp Hq Hw u1 u2 v. assert (Hq0 : q <> 0) by lia.
  unfold dsa_educational_verify. run_mods.
  rewrite Hw. cbn [Py.bind]. run_mods.
  rewrite (pow_mod_nonneg g _ p) by (try apply Z.mod_pos_bound; assumption).
  cbn [Py.bind].
  rewrite (pow_mod_nonneg y _ p) by (try apply Z.mod_pos_bound; assumption).
  cbn [Py.bind]. run_mods.
  eexists. split; [reflexivity |]. split; reflexivity.
Qed.

End DsaEndToEnd.

(** X1: DSA round trip.  For a prime [q], a modulus [p <> 0], a generator
    with [g^q = 1 (mod p)] and non-negative [x] and [k], every signature
    that [dsa_educational_sign] returns is accepted by
    [dsa_educational_verify] under the public key returned with it. *)
Theorem dsa_sign_then_verify (p q g x k : Z) (message : string) (v : value) :
  Z.prime q -> p <> 0 -> (g ^ q) mod p = 1 mod p ->
  0 <= x -> 0 <= k ->
  dsa_educational_sign p q g x k message = Ok v ->
  is_success v ->
  exists y r s w,
    dict_get "signature" (result_dict v)
      = Some (VDict [("r", VInt r); ("s", VInt s)]) /\
    dict_get "public_key" (result_dict v) = Some (VInt y) /\
    dsa_educational_verify p q g y r s message = Ok w /\
    verified_valid w.
Proof.
  intros Hprime Hp Hg Hx Hk Hsign Hsucc.
  pose proof (Z.prime_ge_2 q Hprime) as Hq2.
  assert (Hq : 0 < q) by lia. assert (Hq0 : q <> 0) by lia.
  destruct (dsa_sign_success_inv p q g message x k v Hsign Hsucc)
    as (y & gk & k_inv & Ey & Egk & _ & Hr & Einv & Hs & Hsig & Hpk).
  cbv zeta in Hs, Hsig.
  rewrite (pow_mod_nonneg g x p Hx Hp) in Ey. injection Ey as <-.
  rewrite (pow_mod_nonneg g k p Hk Hp) in Egk. injection Egk as <-.
  set (h := hash_message message) in *.
  set (r := (g ^ k mod p) mod q) in *.
  set (s := (k_inv * ((h mod q + (x * r) mod q) mod q)) mod q) in *.
  destruct (mod_inverse_ok_inv k q k_inv ltac:(lia) Einv) as [_ Hkinv].
  assert (Hsr : 0 <= s < q) by (apply Z.mod_pos_bound; exact Hq).
  assert (Hgs : Z.gcd (s mod q) q = 1).
  { rewrite Z.mod_small by exact Hsr. rewrite Z.gcd_comm.
    apply Z.coprime_prime_small; [exact Hprime | lia]. }
  destruct (mod_inverse_coprime s q ltac:(lia) Hgs) as (w & Ew & _ & Hw).
  destruct (dsa_verify_run p q g message (g ^ x mod p) r s w Hp Hq Ew)
    as (steps & Hver & _).
  cbv zeta in Hver. fold h in Hver.
  set (u1 := (h mod q * w) mod q) in *.
  set (u2 := (r * w) mod q) in *.
  assert (Hu1 : 0 <= u1) by (apply Z.mod_pos_bound; exact Hq).
  assert (Hu2 : 0 <= u2) by (apply Z.mod_pos_bound; exact Hq).
  (* the exponent of [g] that verification rebuilds is [k] modulo [q] *)
  assert (Hexp : cong q (u1 + x * u2) k).
  { assert (Ck : cong q (k * k_inv) 1)
      by (apply cong_iff_mod; rewrite Hkinv; symmetry; apply Z.mod_1_l; lia).
    assert (Cw : cong q (s * w) 1)
      by (apply cong_iff_mod; rewrite Hw; symmetry; apply Z.mod_1_l; lia).
    assert (Cs : cong q s (k_inv * (h + x * r))).
    { unfold s. rewrite !cong_mod. reflexivity. }
    unfold u1, u2. rewrite !cong_mod.
    transitivity (w * (k * k_inv) * (h + x * r)).
    - rewrite Ck. apply cong_refl_eq. ring.
    - replace (w * (k * k_inv) * (h + x * r))
        with (k * (w * (k_inv * (h + x * r)))) by ring.
      rewrite <- Cs. rewrite (Z.mul_comm w s), Cw. apply cong_refl_eq. ring. }
  assert (Hv : ((g ^ u1 mod p * ((g ^ x mod p) ^ u2 mod p)) mod p) mod q = r).
  { unfold r. f_equal. apply cong_iff_mod.
    rewrite !cong_mod.
    rewrite (cong_pow p (g ^ x mod p) (g ^ x) u2 (cong_mod p (g ^ x))).
    rewrite <- Z.pow_mul_r, <- Z.pow_add_r by nia.
    apply (pow_exponent_cong p q g); try assumption; try nia.
    apply cong_iff_mod. exact Hg. }
  rewrite Hv, Z.eqb_refl in Hver.
  exists (g ^ x mod p), r, s. eexists.
  split; [exact Hsig |]. split; [exact Hpk |]. split; [exact Hver |].
  split; reflexivity.
Qed.

Lemma prime_11 : Z.prime 11.
Proof. apply prime_by_trial; [lia | vm_compute; reflexivity]. Qed.

Lemma dsa_sign_then_verify_witness :
  exists v y r s w,
    dsa_educational_sign 23 11 4 3 7 "hi" = Ok v /\
    dict_get "signature" (result_dict v)
      = Some (VDict [("r", VInt r); ("s", VInt s)]) /\
    dsa_educational_verify 23 11 4 y r s "hi" = Ok w /\
    verified_valid w.
Proof.
  destruct (dsa_educational_sign 23 11 4 3 7 "hi") as [v | e] eqn:E;
    [| vm_compute in E; discriminate E].
  assert (Hs : is_success v) by (vm_compute in E; injection E as <-; reflexivity).
  destruct (dsa_sign_then_verify 23 11 4 3 7 "hi" v prime_11
              ltac:(discriminate) ltac:(reflexivity) ltac:(lia) ltac:(lia) E Hs)
    as (y & r & s & w & H1 & _ & H2 & H3).
  exists v, y, r, s, w. repeat split; try assumption; apply H3.
Defined.

(** X2: a signature that DSA sign returns has both components in
    [[1, q-1]] (for [q > 0]), and the public key returned with it is what
    [pow_mod(g, x, p)] gives. *)
Theorem dsa_signature_in_range (p q g x k : Z) (message : string) (v : value) :
  0 < q ->
  dsa_educational_sign p q g x k message = Ok v ->
  is_success v ->
  exists r s y,
    dict_get "signature" (result_dict v)
      = Some (VDict [("r", VInt r); ("s", VInt s)]) /\
    dict_get "public_key" (result_dict v) = Some (VInt y) /\
    pow_mod g x p = Ok y /\
    1 <= r <= q - 1 /\ 1 <= s <= q - 1.
Proof.
  intros Hq Hsign Hsucc.
  destruct (dsa_sign_success_inv p q g message x k v Hsign Hsucc)
    as (y & gk & k_inv & Ey & Egk & _ & Hr & Einv & Hs & Hsig & Hpk).
  cbv zeta in Hs, Hsig.
  eexists; eexists; exists y.
  split; [exact Hsig |]. split; [exact Hpk |]. split; [exact Ey |].
  split.
  - pose proof (Z.mod_pos_bound gk q Hq). lia.
  - match type of Hs with ?s <> 0 =>
      assert (0 <= s < q) by (apply Z.mod_pos_bound; exact Hq) end.
    lia.
Qed.

Lemma dsa_signature_in_range_witness :
  exists v r s,
    dsa_educational_sign 23 11 4 3 7 "hi" = Ok v /\
    dict_get "signature" (result_dict v)
      = Some (VDict [("r", VInt r); ("s", VInt s)]) /\
    1 <= r <= 10 /\ 1 <= s <= 10.
Proof.
  destruct (dsa_educational_sign 23 11 4 3 7 "hi") as [v | e] eqn:E;
    [| vm_compute in E; discriminate E].
  assert (Hs : is_success v) by (vm_compute in E; injection E as <-; reflexivity).
  destruct (dsa_signature_in_range 23 11 4 3 7 "hi" v ltac:(lia) E Hs)
    as (r & s & y & H1 & _ & _ & H2 & H3).
  exists v, r, s. repeat split; try assumption; lia.
Defined.

(** X3: DSA verify never returns an error dictionary.  For [p <> 0] and
    [q > 1] it raises the "no inverse" error when [s] is not a unit modulo
    [q], and otherwise returns a success result with six trace records
    (steps 1 to 6); the signature is reported valid only if [r] is the
    residue [v] in [[0, q)] that step 5 rebuilt. *)
Theorem dsa_verify_outcome (p q g y r s : Z) (message : string) :
  p <> 0 -> 1 < q ->
  (Z.gcd (s mod q) q <> 1 /\
   dsa_educational_verify p q g y r s message =
     Raise (ValueError ("Modular inverse does not exist for "
                          ++ Py.str s ++ " mod " ++ Py.str q))) \/
  (Z.gcd (s mod q) q = 1 /\
   exists w,
     dsa_educational_verify p q g y r s message = Ok w /\
     is_success w /\
     dict_get "error" (result_dict w) = None /\
     step_indices (steps_of w) =
       [Some (VInt 1); Some (VInt 2); Some (VInt 3); Some (VInt 4);
        Some (VInt 5); Some (VInt 6)] /\
     exists v,
       dict_get "verification_value" (result_dict w) = Some (VInt v) /\
       0 <= v < q /\
       dict_get "valid" (result_dict w) = Some (VBool (v =? r))).
Proof.
  intros Hp Hq.
  destruct (Z.eq_dec (Z.gcd (s mod q) q) 1) as [Hg | Hg].
  - right. split; [exact Hg |].
    destruct (mod_inverse_coprime s q Hq Hg) as (w & Ew & _ & _).
    destruct (dsa_verify_run p q g message y r s w Hp ltac:(lia) Ew)
      as (steps & Hver & Hidx & _).
    eexists. split; [exact Hver |].
    split; [reflexivity |]. split; [reflexivity |]. split; [exact Hidx |].
    eexists. split; [reflexivity |].
    split; [apply Z.mod_pos_bound; lia | reflexivity].
  - left. split; [exact Hg |].
    unfold dsa_educational_verify.
    assert (Hq0 : q <> 0) by lia. run_mods.
    rewrite (mod_inverse_not_coprime s q Hq Hg). reflexivity.
Qed.

Lemma dsa_verify_outcome_witness :
  (exists w,
     dsa_educational_verify 23 11 4 18 8 6 "hi" = Ok w /\ is_success w) /\
  dsa_educational_verify 23 11 4 18 8 11 "hi" =
    Raise (ValueError "Modular inverse does not exist for 11 mod 11").
Proof.
  split.
  - destruct (dsa_verify_outcome 23 11 4 18 8 6 "hi" ltac:(discriminate) ltac:(lia))
      as [[Hg _] | [_ (w & H1 & H2 & _)]].
    + exfalso. apply Hg. reflexivity.
    + exists w. split; assumption.
  - destruct (dsa_verify_outcome 23 11 4 18 8 11 "hi" ltac:(discriminate) ltac:(lia))
      as [[_ H] | [Hg _]].
    + exact H.
    + exfalso. vm_compute in Hg. discriminate Hg.
Defined.

(* ===================================================================== *)
(** * Further properties: edge moduli, membership, mirror points          *)
(* ===================================================================== *)

(** X4: [mod_inverse] on the moduli outside [m > 1]: a zero modulus raises
    [ZeroDivisionError]; modulo 1 every [a] has the inverse 0; a negative
    modulus always raises the "no inverse" error, units included. *)
Theorem mod_inverse_edge_moduli (a : Z) :
  (exists msg, mod_inverse a 0 = Raise (ZeroDivisionError msg)) /\
  mod_inverse a 1 = Ok 0 /\
  (forall m, m < 0 ->
     mod_inverse a m =
     Raise (ValueError ("Modular inverse does not exist for "
                          ++ Py.str a ++ " mod " ++ Py.str m))).
Proof.
  split; [eexists; reflexivity |]. split.
  - unfold mod_inverse, Py.mod_. cbn [Z.eqb Py.bind].
    rewrite Z.mod_1_r. rewrite extended_gcd_eqn. reflexivity.
  - intros m Hm. unfold mod_inverse.
    rewrite mod_ok by lia. cbn [Py.bind].
    destruct (extended_gcd_correct (a mod m) m) as (g & x & y & Heq & _ & Hsg).
    rewrite Heq.
    assert (Hneg : negative_run (a mod m) m = true).
    { unfold negative_run. pose proof (Z.mod_neg_bound a m Hm).
      destruct (Z.ltb_spec (a mod m) 0); [reflexivity |].
      destruct (Z.eqb_spec (a mod m) 0); [| lia].
      destruct (Z.ltb_spec m 0); [reflexivity | lia]. }
    unfold signed_gcd in Hsg. rewrite Hneg in Hsg.
    pose proof (Z.gcd_nonneg (a mod m) m).
    destruct (Z.eqb_spec g 1); [lia | reflexivity].
Qed.

Lemma mod_inverse_edge_moduli_witness :
  mod_inverse 1 (-5) =
  Raise (ValueError "Modular inverse does not exist for 1 mod -5").
Proof.
  apply (proj2 (proj2 (mod_inverse_edge_moduli 1)) (-5)). lia.
Defined.

(** X5: [is_on_curve] looks at residues only: shifting the coordinates by
    multiples of the modulus changes neither the answer nor the error, so
    unreduced coordinates of a curve point are accepted. *)
Theorem is_on_curve_shift (c : EllipticCurve.t) (x y i j : Z) :
  EllipticCurve.is_on_curve c
    (Some (x + i * EllipticCurve.p c, y + j * EllipticCurve.p c)) =
  EllipticCurve.is_on_curve c (Some (x, y)).
Proof.
  destruct c as [a b p]. cbn [EllipticCurve.p].
  destruct (Z.eq_dec p 0) as [-> | Hp].
  - rewrite !Z.mul_0_r, !Z.add_0_r. reflexivity.
  - destruct (is_on_curve_decides a b p x y Hp) as [E _].
    destruct (is_on_curve_decides a b p (x + i * p) (y + j * p) Hp) as [E' _].
    rewrite E, E'. do 2 f_equal.
    apply cong_iff_mod.
    assert (Cx : cong p (x + i * p) x) by (exists i; ring).
    assert (Cy : cong p (y + j * p) y) by (exists j; ring).
    rewrite !cube. rewrite Cx, Cy. reflexivity.
Qed.

Section Mirror.

Variables a b p : Z.
Hypothesis p_odd_prime : odd_prime p.

Let curve : EllipticCurve.t := EllipticCurve.mk a b p.

Lemma mirror_on_curve (P : point) :
  on_curve curve P -> on_curve curve (mirror curve P).
Proof.
  destruct P as [[x y] |]; [| exact (fun H => H)].
  unfold on_curve, mirror. cbn [curve EllipticCurve.a EllipticCurve.b EllipticCurve.p].
  intro H. rewrite cong_mod. rewrite <- H.
  apply cong_zero_iff. exists (p - 2 * y). ring.
Qed.

Lemma point_add_mirror (P : point) (log : list event) :
  in_range curve P ->
  EllipticCurve.point_add curve P (mirror curve P) log = (Ok None, log).
Proof.
  destruct P as [[x y] |]; [| reflexivity].
  intros [Hx Hy]. cbn [curve EllipticCurve.p] in Hx, Hy.
  pose proof (modulus_large p p_odd_prime) as Hp.
  unfold mirror, curve. cbn [EllipticCurve.p].
  assert (Hm : 0 <= (p - y) mod p < p) by (apply Z.mod_pos_bound; lia).
  destruct (point_add_finite a b p p_odd_prime x y x ((p - y) mod p) log Hx Hy Hx)
    as [ Ex Ey E0 | inv Ex Ey Hy0 Hd Hinv Hc | Ex Ey | inv Ex Hd Hinv Hc ].
  - reflexivity.
  - exfalso. (* [y = p - y] is impossible for an odd [p] *)
    rewrite Z.mod_small in Ey by lia.
    destruct p_odd_prime as [Hprime _].
    assert (D : (p | 2 * y)) by (exists 1; lia).
    apply (Z.divide_prime_mul 2 y p Hprime) in D.
    destruct D as [D | D]; apply Z.divide_pos_le in D; lia.
  - reflexivity.
  - exfalso. apply Ex. reflexivity.
Qed.

End Mirror.

(** X6: on a curve with odd prime modulus, the mirror image
    [(x, (p - y) mod p)] of a curve point with coordinates in [[0, p)] is a
    curve point in the same range, and [point_add] of the two returns
    Infinity without requesting any inverse. *)
Theorem point_add_inverse_element (c : EllipticCurve.t) (P : point) :
  odd_prime (EllipticCurve.p c) ->
  in_range c P -> on_curve c P ->
  in_range c (mirror c P) /\
  on_curve c (mirror c P) /\
  EllipticCurve.point_add c P (mirror c P) [] = (Ok None, []) /\
  EllipticCurve.point_add c (mirror c P) P [] = (Ok None, []).
Proof.
  destruct c as [a b p]. cbn [EllipticCurve.p].
  intros Hp RP CP.
  pose proof (modulus_large p Hp) as Hlarge.
  assert (RM : in_range (EllipticCurve.mk a b p) (mirror (EllipticCurve.mk a b p) P)).
  { destruct P as [[x y] |]; [| exact I].
    destruct RP as [Hx Hy]. split; [exact Hx |].
    cbn [EllipticCurve.p]. apply Z.mod_pos_bound. lia. }
  split; [exact RM |].
  split; [apply mirror_on_curve; assumption |].
  split; [apply point_add_mirror; assumption |].
  destruct (point_add_comm a b p Hp P (mirror (EllipticCurve.mk a b p) P) RP RM)
    as (R & H1 & H2).
  unfold result_of in H1, H2.
  rewrite (point_add_mirror a b p Hp P [] RP) in H1. injection H1 as <-.
  rewrite point_add_log. rewrite point_add_log in H2.
  unfold result_of, log_of in *. cbn [fst] in H2.
  destruct P as [[x y] |]; [| reflexivity].
  destruct RP as [Hx Hy]. cbn [EllipticCurve.p] in Hx, Hy.
  unfold mirror in *. cbn [EllipticCurve.p] in *.
  assert (Hm : 0 <= (p - y) mod p < p) by (apply Z.mod_pos_bound; lia).
  destruct (point_add_finite a b p Hp x ((p - y) mod p) x y [] Hx Hm Hx)
    as [ Ex Ey E0 | inv Ex Ey Hy0 Hd Hinv Hc | Ex Ey | inv Ex Hd Hinv Hc ];
    try reflexivity; cbn [fst] in H2; discriminate H2.
Qed.

Lemma point_add_inverse_element_witness :
  EllipticCurve.point_add (EllipticCurve.mk 2 3 97) (Some (3, 6)) (Some (3, 91)) []
    = (Ok None, []).
Proof.
  exact (proj1 (proj2 (proj2
           (point_add_inverse_element (EllipticCurve.mk 2 3 97) (Some (3, 6))
              odd_prime_97 ltac:(simpl; lia) on_curve_3_6)))).
Defined.

(* ===================================================================== *)
(** * Further properties: scalar multiplication                           *)
(* ===================================================================== *)

Lemma length_string_of_list (l : list ascii) :
  String.length (string_of_list_ascii l) = List.length l.
Proof. induction l as [| c l IH]; [reflexivity | simpl; rewrite IH; reflexivity]. Qed.

(** [bin(k)[2:]], read backwards, is the list of the bits of [k]. *)
Lemma reversed_binary (n : positive) :
  Py.reversed (Py.drop 2 (Py.bin (Zpos n))) = Py.pos_bits n /\
  String.length (Py.drop 2 (Py.bin (Zpos n))) = List.length (Py.pos_bits n).
Proof.
  unfold Py.reversed, Py.drop, Py.bin.
  change (list_ascii_of_string ("0b" ++ string_of_list_ascii (rev (Py.pos_bits n))))
    with ("0"%char :: "b"%char
            :: list_ascii_of_string (string_of_list_ascii (rev (Py.pos_bits n)))).
  cbn [skipn].
  rewrite !list_ascii_of_string_of_list_ascii, rev_involutive.
  rewrite length_string_of_list, length_rev. split; reflexivity.
Qed.

Lemma pos_bits_binary (n : positive) :
  Forall (fun c => c = "0"%char \/ c = "1"%char) (Py.pos_bits n) /\
  last (Py.pos_bits n) "1"%char = "1"%char /\
  Z.of_nat (List.length (Py.pos_bits n)) = Z.log2 (Zpos n) + 1.
Proof.
  induction n as [n IH | n IH |].
  - destruct IH as (H1 & H2 & H3). split; [constructor; auto |].
    split.
    + cbn [Py.pos_bits]. destruct (Py.pos_bits n) eqn:E; [reflexivity | exact H2].
    + cbn [Py.pos_bits List.length]. rewrite Nat2Z.inj_succ, H3.
      destruct n; simpl; lia.
  - destruct IH as (H1 & H2 & H3). split; [constructor; auto |].
    split.
    + cbn [Py.pos_bits].
      destruct (Py.pos_bits n) eqn:E; [| exact H2].
      destruct n; discriminate E.
    + cbn [Py.pos_bits List.length]. rewrite Nat2Z.inj_succ, H3.
      destruct n; simpl; lia.
  - split; [constructor; [right; reflexivity | constructor] |].
    split; reflexivity.
Qed.

(** Tracing leaves the loop's point, log and exception as they are. *)
Lemma scalar_multiply_loop_drop_steps (c : EllipticCurve.t) (bits : list ascii) :
  forall (show_steps : bool) (len_binary i : Z) (result temp : point)
         (steps : list value) (log : list event),
    drop_steps (EllipticCurve.scalar_multiply_loop c show_steps len_binary bits i
                  result temp steps log) =
    drop_steps (EllipticCurve.scalar_multiply_loop c false len_binary bits i
                  result temp [] log).
Proof.
  induction bits as [| bit rest IH]; intros; [reflexivity |].
  cbn [EllipticCurve.scalar_multiply_loop]. unfold bindM, ret.
  destruct (Ascii.eqb bit "1").
  - destruct (EllipticCurve.point_add c result temp log) as [[R | e] l1];
      [| reflexivity].
    destruct (i <? len_binary - 1).
    + destruct (EllipticCurve.point_add c temp temp l1) as [[T | e] l2];
        [| reflexivity].
      etransitivity; [apply IH | symmetry; apply IH].
    + etransitivity; [apply IH | symmetry; apply IH].
  - destruct (i <? len_binary - 1).
    + destruct (EllipticCurve.point_add c temp temp log) as [[T | e] l2];
        [| reflexivity].
      etransitivity; [apply IH | symmetry; apply IH].
    + etransitivity; [apply IH | symmetry; apply IH].
Qed.

(** One record per processed bit. *)
Lemma scalar_multiply_loop_records (c : EllipticCurve.t) (bits : list ascii) :
  forall (len_binary i : Z) (result temp : point) (steps : list value)
         (log : list event) (R : point) (steps' : list value) (log' : list event),
    len_binary = i + Z.of_nat (List.length bits) ->
    Forall (fun b => b = "0"%char \/ b = "1"%char) bits ->
    last bits "1"%char = "1"%char ->
    EllipticCurve.scalar_multiply_loop c true len_binary bits i result temp steps log
      = (Ok (R, steps'), log') ->
    List.length steps' = (List.length steps + List.length bits)%nat.
Proof.
  induction bits as [| bit rest IH]; intros len_binary i result temp steps log
    R steps' log' Hlen Hbits Hlast H.
  - injection H as _ <- _. simpl. lia.
  - assert (Hlast' : last rest "1"%char = "1"%char).
    { destruct rest; [reflexivity | exact Hlast]. }
    inversion Hbits as [| b l Hb Hrest]; subst b l.
    assert (Hlen' : len_binary = (i + 1) + Z.of_nat (List.length rest)).
    { cbn [List.length] in Hlen. lia. }
    cbn [EllipticCurve.scalar_multiply_loop] in H. unfold bindM, ret in H.
    destruct Hb as [-> | ->].
    + (* a 0 bit is never the last one: the doubling records the skip *)
      change (Ascii.eqb "0" "1") with false in H. cbv beta iota in H.
      assert (Hi : (i <? len_binary - 1) = true).
      { destruct rest; [simpl in Hlast; inversion Hlast |].
        apply Z.ltb_lt. cbn [List.length] in Hlen'. lia. }
      rewrite Hi in H. cbv beta iota in H.
      destruct (EllipticCurve.point_add c temp temp log) as [[T | e] l2];
        [| discriminate H].
      change (true && Ascii.eqb "0" "0") with true in H. cbv beta iota in H.
      apply (IH _ _ _ _ _ _ _ _ _ Hlen' Hrest Hlast') in H.
      rewrite H, length_app. cbn [List.length]. lia.
    + change (Ascii.eqb "1" "1") with true in H. cbv beta iota in H.
      destruct (EllipticCurve.point_add c result temp log) as [[R1 | e] l1];
        [| discriminate H].
      destruct (i <? len_binary - 1); cbv beta iota in H.
      * destruct (EllipticCurve.point_add c temp temp l1) as [[T | e] l2];
          [| discriminate H].
        change (true && Ascii.eqb "1" "0") with false in H. cbv beta iota in H.
        apply (IH _ _ _ _ _ _ _ _ _ Hlen' Hrest Hlast') in H.
        rewrite H, length_app. cbn [List.length]. lia.
      * apply (IH _ _ _ _ _ _ _ _ _ Hlen' Hrest Hlast') in H.
        rewrite H, length_app. cbn [List.length]. lia.
Qed.

Section ScalarMultiply.

Variables a b p : Z.
Hypothesis p_odd_prime : odd_prime p.

Let curve : EllipticCurve.t := EllipticCurve.mk a b p.

(** [point_add] on curve points: the point returned and what is logged. *)
Lemma point_add_closed_log (P Q : point) (log : list event) :
  in_range curve P -> in_range curve Q ->
  on_curve curve P -> on_curve curve Q ->
  exists R reqs,
    EllipticCurve.point_add curve P Q log = (Ok R, (log ++ reqs)%list) /\
    in_range curve R /\ on_curve curve R /\
    Forall (sound_event curve) reqs.
Proof.
  intros RP RQ CP CQ.
  destruct P as [[x1 y1] |];
    [| exists Q, []; rewrite app_nil_r;
       split; [reflexivity | split; [assumption | split; [assumption | constructor]]]].
  destruct Q as [[x2 y2] |];
    [| exists (Some (x1, y1)), []; rewrite app_nil_r;
       split; [reflexivity | split; [assumption | split; [assumption | constructor]]]].
  destruct RP as [Hx1 Hy1]. destruct RQ as [Hx2 Hy2].
  cbn [curve EllipticCurve.p] in Hx1, Hy1, Hx2, Hy2.
  unfold curve at 1.
  destruct (point_add_finite a b p p_odd_prime x1 y1 x2 y2 log Hx1 Hy1 Hx2)
    as [ Ex Ey E0 | inv Ex Ey Hy0 Hd Hinv Hc | Ex Ey | inv Ex Hd Hinv Hc ].
  - exists None, []. rewrite app_nil_r. repeat split; constructor.
  - eexists; eexists. split; [reflexivity |].
    split; [apply slope_point_in_range; assumption |].
    split; [subst x2 y2; apply tangent_point_on_curve; assumption |].
    repeat constructor. exact Hd.
  - exists None, []. rewrite app_nil_r. repeat split; constructor.
  - eexists; eexists. split; [reflexivity |].
    split; [apply slope_point_in_range; assumption |].
    split; [apply chord_point_on_curve; assumption |].
    repeat constructor. exact Hd.
Qed.

(** The loop keeps its accumulator and its running point on the curve. *)
Lemma scalar_multiply_loop_closed (bits : list ascii) :
  forall (show_steps : bool) (len_binary i : Z) (result temp : point)
         (steps : list value) (log : list event),
    in_range curve result -> on_curve curve result ->
    in_range curve temp -> on_curve curve temp ->
    exists R steps' reqs,
      EllipticCurve.scalar_multiply_loop curve show_steps len_binary bits i
        result temp steps log = (Ok (R, steps'), (log ++ reqs)%list) /\
      in_range curve R /\ on_curve curve R /\
      Forall (sound_event curve) reqs.
Proof.
  induction bits as [| bit rest IH];
    intros show_steps len_binary i result temp steps log RR CR RT CT.
  - exists result, steps, []. rewrite app_nil_r. repeat split; auto.
  - cbn [EllipticCurve.scalar_multiply_loop]. unfold bindM, ret.
    destruct (Ascii.eqb bit "1").
    + destruct (point_add_closed_log result temp log RR RT CR CT)
        as (R1 & q1 & E1 & RR1 & CR1 & F1).
      rewrite E1.
      destruct (i <? len_binary - 1).
      * destruct (point_add_closed_log temp temp (log ++ q1) RT RT CT CT)
          as (T & q2 & E2 & RT2 & CT2 & F2).
        rewrite E2. cbv beta iota.
        match goal with
        | |- context [EllipticCurve.scalar_multiply_loop _ ?ss ?len _ ?j ?r ?t ?s ?l] =>
            destruct (IH ss len j r t s l RR1 CR1 RT2 CT2)
              as (R & steps' & q3 & E3 & RR3 & CR3 & F3)
        end.
        exists R, steps', (q1 ++ q2 ++ q3)%list.
        rewrite E3, !app_assoc.
        split; [reflexivity | split; [assumption | split; [assumption |]]].
        rewrite <- app_assoc. repeat (apply Forall_app; split); assumption.
      * cbv beta iota.
        match goal with
        | |- context [EllipticCurve.scalar_multiply_loop _ ?ss ?len _ ?j ?r ?t ?s ?l] =>
            destruct (IH ss len j r t s l RR1 CR1 RT CT)
              as (R & steps' & q3 & E3 & RR3 & CR3 & F3)
        end.
        exists R, steps', (q1 ++ q3)%list.
        rewrite E3, !app_assoc.
        split; [reflexivity | split; [assumption | split; [assumption |]]].
        apply Forall_app; split; assumption.
    + destruct (i <? len_binary - 1).
      * destruct (point_add_closed_log temp temp log RT RT CT CT)
          as (T & q2 & E2 & RT2 & CT2 & F2).
        cbv beta iota. rewrite E2. cbv beta iota.
        match goal with
        | |- context [EllipticCurve.scalar_multiply_loop _ ?ss ?len _ ?j ?r ?t ?s ?l] =>
            destruct (IH ss len j r t s l RR CR RT2 CT2)
              as (R & steps' & q3 & E3 & RR3 & CR3 & F3)
        end.
        exists R, steps', (q2 ++ q3)%list.
        rewrite E3, !app_assoc.
        split; [reflexivity | split; [assumption | split; [assumption |]]].
        apply Forall_app; split; assumption.
      * cbv beta iota. apply IH; assumption.
Qed.

End ScalarMultiply.

(** Dropping the steps of a traced call gives the untraced call. *)
Lemma scalar_multiply_drop_steps
    (c : EllipticCurve.t) (k : Z) (P : point) (log : list event) :
  drop_steps (EllipticCurve.scalar_multiply c k P true log) =
  EllipticCurve.scalar_multiply c k P false log.
Proof.
  unfold EllipticCurve.scalar_multiply.
  unfold bindM at 1 3. unfold emit.
  destruct ((k =? 0) || match P with None => true | Some _ => false end);
    [reflexivity |].
  destruct (k <? 0); [reflexivity |].
  unfold bindM, ret.
  match goal with
  | |- drop_steps (let (_, _) := ?A in _) = (let (_, _) := ?B in _) =>
      assert (H : drop_steps A = drop_steps B)
        by apply scalar_multiply_loop_drop_steps;
      destruct A as [[[R s] | e] l1]; destruct B as [[[R' s'] | e'] l2];
      unfold drop_steps in *; cbn [fst snd] in *;
      try discriminate H; injection H as <- <-; reflexivity
  end.
Qed.

(** X7: asking for the trace changes nothing else: with and without
    [show_steps], [scalar_multiply] returns the same point, raises the same
    exception and logs the same scalar multiplication and inversion
    requests. *)
Theorem scalar_multiply_tracing_transparent
    (c : EllipticCurve.t) (k : Z) (P : point) (log : list event) :
  drop_steps (EllipticCurve.scalar_multiply c k P true log) =
  EllipticCurve.scalar_multiply c k P false log.
Proof. apply scalar_multiply_drop_steps. Qed.

(** X8: scalar multiplication stays on the curve.  On a curve with odd
    prime modulus, for a curve point [P] with coordinates in [[0, p)] and a
    scalar [k >= 0], [scalar_multiply(k, P)] returns (it never raises) a
    curve point with coordinates in [[0, p)], and every inverse it requests
    on the way is on a denominator that is not zero modulo [p]. *)
Theorem scalar_multiply_on_curve (c : EllipticCurve.t) (k : Z) (P : point) :
  odd_prime (EllipticCurve.p c) ->
  in_range c P -> on_curve c P -> 0 <= k ->
  exists R log,
    EllipticCurve.scalar_multiply c k P false [] = (Ok R, log) /\
    in_range c R /\ on_curve c R /\
    Forall (sound_event c) log.
Proof.
  destruct c as [a b p]. cbn [EllipticCurve.p].
  intros Hp RP CP Hk.
  unfold EllipticCurve.scalar_multiply.
  unfold bindM at 1. unfold emit. cbn [app].
  destruct ((k =? 0) || match P with None => true | Some _ => false end).
  - exists None, [ScalarMul k P].
    split; [reflexivity |]. split; [exact I |]. split; [exact I |].
    repeat constructor.
  - destruct (Z.ltb_spec k 0) as [Hneg | _]; [lia |].
    unfold bindM, ret.
    match goal with
    | |- context [EllipticCurve.scalar_multiply_loop ?c0 ?ss ?len ?bits ?j ?r ?t ?s ?l] =>
        destruct (scalar_multiply_loop_closed a b p Hp bits ss len j r t s l
                    I I RP CP)
          as (R & steps' & reqs & E & RR & CR & F)
    end.
    rewrite E. exists R. eexists. split; [reflexivity |].
    split; [exact RR |]. split; [exact CR |].
    constructor; [exact I | exact F].
Qed.

Lemma scalar_multiply_on_curve_witness :
  exists R log,
    EllipticCurve.scalar_multiply (EllipticCurve.mk 2 3 97) 3 (Some (3, 6)) false []
      = (Ok R, log) /\
    on_curve (EllipticCurve.mk 2 3 97) R.
Proof.
  destruct (scalar_multiply_on_curve (EllipticCurve.mk 2 3 97) 3 (Some (3, 6))
              odd_prime_97 ltac:(simpl; lia) on_curve_3_6 ltac:(lia))
    as (R & log & H1 & _ & H2 & _).
  exists R, log. split; assumption.
Defined.

(** X9: the trace of a scalar multiplication.  Under the same conditions,
    for [k > 0] and a finite [P], the traced call returns the point of the
    untraced call together with one record for the conversion to binary
    and one record per bit of [k]: [log2(k) + 2] records in all. *)
Theorem scalar_multiply_trace_records (c : EllipticCurve.t) (k x y : Z) :
  odd_prime (EllipticCurve.p c) ->
  in_range c (Some (x, y)) -> on_curve c (Some (x, y)) -> 0 < k ->
  exists R steps log,
    EllipticCurve.scalar_multiply c k (Some (x, y)) true [] = (Ok (R, steps), log) /\
    EllipticCurve.scalar_multiply c k (Some (x, y)) false [] = (Ok R, log) /\
    Z.of_nat (List.length steps) = Z.log2 k + 2.
Proof.
  destruct c as [a b p]. cbn [EllipticCurve.p].
  intros Hp RP CP Hk.
  destruct k as [| n | n]; try lia.
  assert (Htrue : exists R steps log,
            EllipticCurve.scalar_multiply (EllipticCurve.mk a b p) (Zpos n)
              (Some (x, y)) true [] = (Ok (R, steps), log) /\
            List.length steps = S (List.length (Py.pos_bits n))).
  { unfold EllipticCurve.scalar_multiply.
    unfold bindM at 1. unfold emit. cbn [app orb Z.eqb Z.ltb Z.compare].
    destruct (reversed_binary n) as [Hrev Hlen]. rewrite Hrev, Hlen.
    unfold bindM, ret.
    match goal with
    | |- context [EllipticCurve.scalar_multiply_loop ?c0 ?ss ?len ?bits ?j ?r ?t ?s ?l] =>
        destruct (scalar_multiply_loop_closed a b p Hp bits ss len j r t s l
                    I I RP CP)
          as (R & steps' & reqs & E & RR & CR & F);
        pose proof (scalar_multiply_loop_records c0 bits len j r t s l R steps' _
                      ltac:(lia) (proj1 (pos_bits_binary n))
                      (proj1 (proj2 (pos_bits_binary n))) E) as Hcount
    end.
    rewrite E. exists R, steps'. eexists. split; [reflexivity |].
    exact Hcount. }
  destruct Htrue as (R & steps & log & E & Hcount).
  exists R, steps, log. split; [exact E |]. split.
  - rewrite <- scalar_multiply_drop_steps. rewrite E. reflexivity.
  - rewrite Hcount, Nat2Z.inj_succ.
    pose proof (proj2 (proj2 (pos_bits_binary n))). lia.
Qed.

Lemma scalar_multiply_trace_records_witness :
  exists R steps log,
    EllipticCurve.scalar_multiply (EllipticCurve.mk 2 3 97) 3 (Some (3, 6)) true []
      = (Ok (R, steps), log) /\
    Z.of_nat (List.length steps) = 3.
Proof.
  destruct (scalar_multiply_trace_records (EllipticCurve.mk 2 3 97) 3 3 6
              odd_prime_97 ltac:(simpl; lia) on_curve_3_6 ltac:(lia))
    as (R & steps & log & H1 & _ & H2).
  exists R, steps, log. split; [exact H1 | exact H2].
Defined.

(* ===================================================================== *)
(** * Further properties: the ECDSA engine                                *)
(* ===================================================================== *)

Lemma bindM_inv {A B : Type} (m : M A) (f : A -> M B) (log log' : list event) (b : B) :
  bindM m f log = (Ok b, log') ->
  exists a l, m log = (Ok a, l) /\ f a l = (Ok b, log').
Proof.
  unfold bindM. destruct (m log) as [[a | e] l]; [| discriminate].
  intro H. exists a, l. split; [reflexivity | exact H].
Qed.

Lemma lift_inv {A : Type} (r : res A) (log l : list event) (a : A) :
  lift r log = (Ok a, l) -> r = Ok a /\ l = log.
Proof. unfold lift. intro H. injection H as -> <-. split; reflexivity. Qed.

Lemma lift_mod_inv (u m v : Z) (log l : list event) :
  lift (Py.mod_ u m) log = (Ok v, l) -> m <> 0 /\ v = u mod m /\ l = log.
Proof.
  intro H. apply lift_inv in H. destruct H as [H ->].
  apply mod_ok_inv in H. tauto.
Qed.

Section EcdsaSign.

Variables a b p Gx Gy n d k : Z.
Variable message : string.

Let curve : EllipticCurve.t := EllipticCurve.mk a b p.
Let G : point := Some (Gx, Gy).

(** What a successful ECDSA signature is made of. *)
Lemma ecdsa_sign_success_inv (v : value) (log : list event) :
  ecdsa_educational_sign a b p Gx Gy n d k message [] = (Ok v, log) ->
  is_success v ->
  exists Qx Qy mult_steps l1 x1 y1 kG_steps k_inv,
    EllipticCurve.is_on_curve curve G = Ok true /\
    EllipticCurve.scalar_multiply curve d G true [] = (Ok (Some (Qx, Qy), mult_steps), l1) /\
    n <> 0 /\
    EllipticCurve.scalar_multiply curve k G true l1 = (Ok (Some (x1, y1), kG_steps), log) /\
    x1 mod n <> 0 /\
    mod_inverse k n = Ok k_inv /\
    let r := x1 mod n in
    let s := (k_inv * ((hash_message message mod n + (d * r) mod n) mod n)) mod n in
    s <> 0 /\
    ecdsa_signed v r s (Qx, Qy) /\
    step_indices (steps_of v) =
      [Some (VInt 0); Some (VInt 1); Some (VInt 2); Some (VInt 3);
       Some (VInt 5); Some (VInt 6)].
Proof.
  unfold ecdsa_educational_sign. cbv zeta. fold curve. fold G. intros H Hs.
  apply bindM_inv in H. destruct H as (G_ok & l0 & HG & H). cbv beta in H.
  apply lift_inv in HG. destruct HG as [HG ->].
  destruct G_ok; cbn [negb] in H; [| injection H as <- _; discriminate Hs].
  apply bindM_inv in H. destruct H as ([Q mult_steps] & l1 & HdG & H). cbv beta iota in H.
  apply bindM_inv in H. destruct H as (e & l2 & He & H). cbv beta in H.
  apply lift_mod_inv in He. destruct He as (Hn & -> & ->).
  apply bindM_inv in H. destruct H as ([kG kG_steps] & l3 & HkG & H). cbv beta iota in H.
  destruct kG as [[x1 y1] |]; [| injection H as <- _; discriminate Hs].
  apply bindM_inv in H. destruct H as (r & l4 & Hr & H). cbv beta in H.
  apply lift_mod_inv in Hr. destruct Hr as (_ & -> & ->).
  destruct (Z.eqb_spec (x1 mod n) 0) as [E0 | Hr0];
    [injection H as <- _; discriminate Hs |].
  apply bindM_inv in H. destruct H as (k_inv & l5 & Hinv & H). cbv beta in H.
  apply lift_inv in Hinv. destruct Hinv as [Hinv ->].
  apply bindM_inv in H. destruct H as (kk & l6 & Hkk & H). cbv beta in H.
  apply lift_mod_inv in Hkk. destruct Hkk as (_ & -> & ->).
  apply bindM_inv in H. destruct H as (dr & l7 & Hdr & H). cbv beta in H.
  apply lift_mod_inv in Hdr. destruct Hdr as (_ & -> & ->).
  apply bindM_inv in H. destruct H as (edr & l8 & Hedr & H). cbv beta in H.
  apply lift_mod_inv in Hedr. destruct Hedr as (_ & -> & ->).
  apply bindM_inv in H. destruct H as (s & l9 & Hsv & H). cbv beta in H.
  apply lift_mod_inv in Hsv. destruct Hsv as (_ & -> & ->).
  match type of H with
  | (if ?s =? 0 then _ else _) _ = _ => destruct (Z.eqb_spec s 0) as [E0 | Hs0]
  end; [injection H as <- _; discriminate Hs |].
  destruct Q as [[Qx Qy] |]; [| discriminate H].
  injection H as <- <-.
  exists Qx, Qy, mult_steps, l1, x1, y1, kG_steps, k_inv.
  repeat split; try assumption; reflexivity.
Qed.

End EcdsaSign.

(** X10: what ECDSA sign returns on success.  For [n > 0], a success result
    holds a signature with both components in [[1, n-1]], the finite public
    key [Q] that [scalar_multiply(d, G)] computed, and a trace of six
    records, steps 0, 1, 2, 3, 5 and 6 (the computation of [r], step 4,
    appends none); the generator passed the curve check. *)
Theorem ecdsa_sign_success (a b p Gx Gy n d k : Z) (message : string)
    (v : value) (log : list event) :
  0 < n ->
  ecdsa_educational_sign a b p Gx Gy n d k message [] = (Ok v, log) ->
  is_success v ->
  exists r s Qx Qy mult_steps,
    ecdsa_signed v r s (Qx, Qy) /\
    1 <= r <= n - 1 /\ 1 <= s <= n - 1 /\
    result_of (EllipticCurve.scalar_multiply (EllipticCurve.mk a b p) d
                 (Some (Gx, Gy)) true) = Ok (Some (Qx, Qy), mult_steps) /\
    EllipticCurve.is_on_curve (EllipticCurve.mk a b p) (Some (Gx, Gy)) = Ok true /\
    step_indices (steps_of v) =
      [Some (VInt 0); Some (VInt 1); Some (VInt 2); Some (VInt 3);
       Some (VInt 5); Some (VInt 6)].
Proof.
  intros Hn H Hs.
  destruct (ecdsa_sign_success_inv a b p Gx Gy n d k message v log H Hs)
    as (Qx & Qy & ms & l1 & x1 & y1 & ks & k_inv
        & HG & HQ & _ & HkG & Hr & Hinv & Hs0 & Hsig & Hidx).
  cbv zeta in Hs0, Hsig.
  eexists; eexists; exists Qx, Qy, ms.
  split; [exact Hsig |].
  split; [pose proof (Z.mod_pos_bound x1 n Hn); lia |].
  split.
  - match type of Hs0 with ?s <> 0 =>
      assert (0 <= s < n) by (apply Z.mod_pos_bound; exact Hn) end.
    lia.
  - split; [unfold result_of; rewrite HQ; reflexivity |].
    split; [exact HG | exact Hidx].
Qed.

Lemma ecdsa_sign_success_witness :
  exists v r s,
    result_of (ecdsa_educational_sign 2 3 97 3 6 5 3 4 "Test") = Ok v /\
    ecdsa_signed v r s (80, 87) /\ 1 <= r <= 4 /\ 1 <= s <= 4.
Proof.
  destruct (ecdsa_educational_sign 2 3 97 3 6 5 3 4 "Test" []) as [[v | e] log] eqn:E;
    [| vm_compute in E; discriminate E].
  assert (Hs : is_success v) by (vm_compute in E; injection E as <- _; reflexivity).
  destruct (ecdsa_sign_success 2 3 97 3 6 5 3 4 "Test" v log ltac:(lia) E Hs)
    as (r & s & Qx & Qy & ms & H1 & H2 & H3 & H4 & _).
  assert (HQ : (Qx, Qy) = (80, 87)).
  { vm_compute in H4. injection H4 as -> ->. reflexivity. }
  rewrite HQ in H1.
  exists v, r, s. unfold result_of. rewrite E.
  split; [reflexivity |]. split; [exact H1 |]. split; assumption.
Defined.

(** X11: ECDSA sign never reports success with the public key at infinity.
    When [scalar_multiply(d, G)] returns Infinity (as for [d = 0], or [d] a
    multiple of the order of [G]), no result of the call is a success
    result: the call ends in one of its error results or raises (the last
    statement subscripts [Q], which is [None]). *)
Theorem ecdsa_sign_public_key_at_infinity
    (a b p Gx Gy n d k : Z) (message : string) (mult_steps : list value) :
  result_of (EllipticCurve.scalar_multiply (EllipticCurve.mk a b p) d
               (Some (Gx, Gy)) true) = Ok (None, mult_steps) ->
  forall (v : value) (log : list event),
    ecdsa_educational_sign a b p Gx Gy n d k message [] = (Ok v, log) ->
    ~ is_success v.
Proof.
  intros HQ v log H Hs.
  destruct (ecdsa_sign_success_inv a b p Gx Gy n d k message v log H Hs)
    as (Qx & Qy & ms & l1 & _ & _ & _ & _ & _ & HQ' & _).
  unfold result_of in HQ. rewrite HQ' in HQ. discriminate HQ.
Qed.

Lemma ecdsa_sign_public_key_at_infinity_witness :
  result_of (ecdsa_educational_sign 2 3 97 3 6 5 0 4 "Hello") =
    Raise (TypeError "'NoneType' object is not subscriptable") /\
  forall (v : value) (log : list event),
    ecdsa_educational_sign 2 3 97 3 6 5 0 4 "Hello" [] = (Ok v, log) ->
    ~ is_success v.
Proof.
  split; [vm_compute; reflexivity |].
  apply (ecdsa_sign_public_key_at_infinity 2 3 97 3 6 5 0 4 "Hello" []).
  reflexivity.
Defined.

Section EcdsaVerify.

Variables a b p Gx Gy n Qx Qy r s : Z.
Variable message : string.

Let curve : EllipticCurve.t := EllipticCurve.mk a b p.
Let G : point := Some (Gx, Gy).
Let Q : point := Some (Qx, Qy).

(** What an accepted ECDSA signature went through. *)
Lemma ecdsa_verify_valid_inv (v : value) (log : list event) :
  ecdsa_educational_verify a b p Gx Gy n Qx Qy r s message [] = (Ok v, log) ->
  verified_valid v ->
  exists w u1G u2Q vx vy st1 st2 l1 l2,
    EllipticCurve.is_on_curve curve G = Ok true /\
    EllipticCurve.is_on_curve curve Q = Ok true /\
    n <> 0 /\
    mod_inverse s n = Ok w /\
    EllipticCurve.scalar_multiply curve ((hash_message message mod n * w) mod n)
      G true [] = (Ok (Some u1G, st1), l1) /\
    EllipticCurve.scalar_multiply curve ((r * w) mod n) Q true l1
      = (Ok (Some u2Q, st2), l2) /\
    EllipticCurve.point_add curve (Some u1G) (Some u2Q) l2 = (Ok (Some (vx, vy)), log) /\
    r = vx mod n.
Proof.
  unfold ecdsa_educational_verify. cbv zeta. fold curve. fold G. fold Q.
  intros H [Hs Hv].
  apply bindM_inv in H. destruct H as (G_ok & l0 & HG & H). cbv beta in H.
  apply lift_inv in HG. destruct HG as [HG ->].
  destruct G_ok; cbn [negb] in H; [| injection H as <- _; discriminate Hs].
  apply bindM_inv in H. destruct H as (Q_ok & l0 & HQ & H). cbv beta in H.
  apply lift_inv in HQ. destruct HQ as [HQ ->].
  destruct Q_ok; cbn [negb] in H; [| injection H as <- _; discriminate Hs].
  apply bindM_inv in H. destruct H as (e & l0 & He & H). cbv beta in H.
  apply lift_mod_inv in He. destruct He as (Hn & -> & ->).
  apply bindM_inv in H. destruct H as (w & l0 & Hw & H). cbv beta in H.
  apply lift_inv in Hw. destruct Hw as [Hw ->].
  apply bindM_inv in H. destruct H as (sw & l0 & Hsw & H). cbv beta in H.
  apply lift_mod_inv in Hsw. destruct Hsw as (_ & -> & ->).
  apply bindM_inv in H. destruct H as (u1 & l0 & Hu1 & H). cbv beta in H.
  apply lift_mod_inv in Hu1. destruct Hu1 as (_ & -> & ->).
  apply bindM_inv in H. destruct H as (u2 & l0 & Hu2 & H). cbv beta in H.
  apply lift_mod_inv in Hu2. destruct Hu2 as (_ & -> & ->).
  apply bindM_inv in H. destruct H as ([u1G st1] & l1 & H1 & H). cbv beta iota in H.
  destruct u1G as [u1G |]; [| injection H as <- _; discriminate Hs].
  apply bindM_inv in H. destruct H as ([u2Q st2] & l2 & H2 & H). cbv beta iota in H.
  destruct u2Q as [u2Q |]; [| injection H as <- _; discriminate Hs].
  apply bindM_inv in H. destruct H as (vp & l3 & H3 & H). cbv beta in H.
  destruct vp as [[vx vy] |]; [| injection H as <- _; discriminate Hs].
  apply bindM_inv in H. destruct H as (vv & l4 & Hvv & H). cbv beta in H.
  apply lift_mod_inv in Hvv. destruct Hvv as (_ & -> & ->).
  injection H as <- <-.
  exists w, u1G, u2Q, vx, vy, st1, st2, l1, l2.
  repeat split; try assumption.
  unfold result_dict in Hv. cbn [dict_get String.eqb Ascii.eqb Bool.eqb] in Hv.
  injection Hv as Hv. apply Z.eqb_eq in Hv. symmetry. exact Hv.
Qed.

(** A message whose hash is a multiple of [n] stops at [u1 × G]. *)
Lemma ecdsa_verify_zero_hash (w : Z) :
  p <> 0 -> n <> 0 ->
  on_curve curve G -> on_curve curve Q ->
  hash_message message mod n = 0 ->
  mod_inverse s n = Ok w ->
  exists steps,
    ecdsa_educational_verify a b p Gx Gy n Qx Qy r s message [] =
      (Ok (VDict
             [("error", VStr "u₁×G resulted in point at infinity");
              ("steps", VList steps)]),
       [ScalarMul 0 (Some (Gx, Gy))]) /\
    step_indices steps =
      [Some (VInt 0); Some (VInt 1); Some (VInt 2); Some (VInt 3); Some (VInt 4)].
Proof.
  intros Hp Hn HG HQ Hh Hw.
  unfold ecdsa_educational_verify. cbv zeta.
  unfold bindM at 1. unfold lift at 1.
  rewrite (is_on_curve_on a b p Gx Gy Hp HG). cbn [negb]. cbv beta iota.
  unfold bindM at 1. unfold lift at 1.
  rewrite (is_on_curve_on a b p Qx Qy Hp HQ). cbn [negb]. cbv beta iota.
  unfold bindM at 1. unfold lift at 1. rewrite mod_ok by assumption. cbv beta iota.
  unfold bindM at 1. unfold lift at 1. rewrite Hw. cbv beta iota.
  unfold bindM at 1. unfold lift at 1. rewrite mod_ok by assumption. cbv beta iota.
  unfold bindM at 1. unfold lift at 1. rewrite mod_ok by assumption. cbv beta iota.
  unfold bindM at 1. unfold lift at 1. rewrite mod_ok by assumption. cbv beta iota.
  rewrite Hh. rewrite Z.mul_0_l, Z.mod_0_l by assumption.
  eexists. split; reflexivity.
Qed.

End EcdsaVerify.

(** X12: what ECDSA verify accepts.  For [n > 0], a signature is reported
    valid only when both points passed the curve check, [s] has an inverse
    [w] modulo [n], neither [u1 × G] nor [u2 × Q] nor their sum is Infinity,
    and [r] is the residue modulo [n] of the abscissa of that sum; so [r]
    lies in [[0, n)]. *)
Theorem ecdsa_verify_accepts_only
    (a b p Gx Gy n Qx Qy r s : Z) (message : string) (v : value) (log : list event) :
  0 < n ->
  ecdsa_educational_verify a b p Gx Gy n Qx Qy r s message [] = (Ok v, log) ->
  verified_valid v ->
  0 <= r < n /\
  exists w u1G u2Q vx vy st1 st2 l1 l2,
    EllipticCurve.is_on_curve (EllipticCurve.mk a b p) (Some (Gx, Gy)) = Ok true /\
    EllipticCurve.is_on_curve (EllipticCurve.mk a b p) (Some (Qx, Qy)) = Ok true /\
    mod_inverse s n = Ok w /\
    EllipticCurve.scalar_multiply (EllipticCurve.mk a b p)
      ((hash_message message mod n * w) mod n) (Some (Gx, Gy)) true []
      = (Ok (Some u1G, st1), l1) /\
    EllipticCurve.scalar_multiply (EllipticCurve.mk a b p)
      ((r * w) mod n) (Some (Qx, Qy)) true l1
      = (Ok (Some u2Q, st2), l2) /\
    EllipticCurve.point_add (EllipticCurve.mk a b p) (Some u1G) (Some u2Q) l2
      = (Ok (Some (vx, vy)), log) /\
    r = vx mod n.
Proof.
  intros Hn H Hv.
  destruct (ecdsa_verify_valid_inv a b p Gx Gy n Qx Qy r s message v log H Hv)
    as (w & u1G & u2Q & vx & vy & st1 & st2 & l1 & l2
        & HG & HQ & _ & Hw & H1 & H2 & H3 & Hr).
  split; [rewrite Hr; apply Z.mod_pos_bound; exact Hn |].
  exists w, u1G, u2Q, vx, vy, st1, st2, l1, l2.
  repeat split; assumption.
Qed.

Lemma ecdsa_verify_accepts_only_witness :
  exists v log,
    ecdsa_educational_verify 2 3 97 3 6 5 80 87 3 2 "Hello" [] = (Ok v, log) /\
    verified_valid v /\ 0 <= 3 < 5.
Proof.
  destruct (ecdsa_educational_verify 2 3 97 3 6 5 80 87 3 2 "Hello" [])
    as [[v | e] log] eqn:E; [| vm_compute in E; discriminate E].
  assert (Hv : verified_valid v)
    by (vm_compute in E; injection E as <- _; split; reflexivity).
  exists v, log. split; [reflexivity |]. split; [exact Hv |].
  exact (proj1 (ecdsa_verify_accepts_only 2 3 97 3 6 5 80 87 3 2 "Hello" v log
                  ltac:(lia) E Hv)).
Defined.

(** X13: a message whose hash is a multiple of [n] cannot be verified.
    With both points on the curve ([p <> 0], [n <> 0]) and [s] invertible
    modulo [n], [u1 = e * w mod n] is 0, [scalar_multiply(0, G)] is Infinity,
    and verify returns the error "u₁×G resulted in point at infinity" with
    the trace of steps 0 to 4, whatever the signature. *)
Theorem ecdsa_verify_hash_multiple_of_order
    (a b p Gx Gy n Qx Qy r s w : Z) (message : string) :
  p <> 0 -> n <> 0 ->
  on_curve (EllipticCurve.mk a b p) (Some (Gx, Gy)) ->
  on_curve (EllipticCurve.mk a b p) (Some (Qx, Qy)) ->
  hash_message message mod n = 0 ->
  mod_inverse s n = Ok w ->
  exists steps,
    ecdsa_educational_verify a b p Gx Gy n Qx Qy r s message [] =
      (Ok (VDict
             [("error", VStr "u₁×G resulted in point at infinity");
              ("steps", VList steps)]),
       [ScalarMul 0 (Some (Gx, Gy))]) /\
    step_indices steps =
      [Some (VInt 0); Some (VInt 1); Some (VInt 2); Some (VInt 3); Some (VInt 4)].
Proof.
  intros. apply (ecdsa_verify_zero_hash a b p Gx Gy n Qx Qy r s message w);
    assumption.
Qed.

Lemma on_curve_80_87 : on_curve (EllipticCurve.mk 2 3 97) (Some (80, 87)).
Proof. apply cong_iff_mod. reflexivity. Qed.

Lemma ecdsa_verify_hash_multiple_of_order_witness :
  exists steps,
    ecdsa_educational_verify 2 3 97 3 6 5 80 87 3 1 "Test" [] =
      (Ok (VDict
             [("error", VStr "u₁×G resulted in point at infinity");
              ("steps", VList steps)]),
       [ScalarMul 0 (Some (3, 6))]).
Proof.
  destruct (ecdsa_verify_hash_multiple_of_order 2 3 97 3 6 5 80 87 3 1 1 "Test"
              ltac:(discriminate) ltac:(discriminate)
              on_curve_3_6 on_curve_80_87 ltac:(vm_compute; reflexivity)
              ltac:(vm_compute; reflexivity))
    as (steps & H & _).
  exists steps. exact H.
Defined.

(* ===================================================================== *)
(** * Further properties: the routes                                      *)
(* ===================================================================== *)

(** X14: the status of the four educational routes.  Each route answers
    200 exactly when the engine returned a success result, and 400 in every
    other case (an error result of the engine, or an exception); whenever
    the engine returned a dictionary, the body is that dictionary. *)
Theorem api_status_reports_success
    (p q g x k y r s a b Gx Gy n d Qx Qy : Z) (message : string) :
  (snd (api_dsa_educational_sign p q g x k message) = 200 <->
   exists v, dsa_educational_sign p q g x k message = Ok v /\ is_success v) /\
  (snd (api_dsa_educational_verify p q g y r s message) = 200 <->
   exists v, dsa_educational_verify p q g y r s message = Ok v /\ is_success v) /\
  (snd (api_ecdsa_educational_sign a b p Gx Gy n d k message) = 200 <->
   exists v, result_of (ecdsa_educational_sign a b p Gx Gy n d k message) = Ok v /\
             is_success v) /\
  (snd (api_ecdsa_educational_verify a b p Gx Gy n Qx Qy r s message) = 200 <->
   exists v, result_of (ecdsa_educational_verify a b p Gx Gy n Qx Qy r s message) = Ok v /\
             is_success v) /\
  (forall status,
     In status [snd (api_dsa_educational_sign p q g x k message);
                snd (api_dsa_educational_verify p q g y r s message);
                snd (api_ecdsa_educational_sign a b p Gx Gy n d k message);
                snd (api_ecdsa_educational_verify a b p Gx Gy n Qx Qy r s message)] ->
     status = 200 \/ status = 400) /\
  (forall v, dsa_educational_sign p q g x k message = Ok v ->
             fst (api_dsa_educational_sign p q g x k message) = v) /\
  (forall v, result_of (ecdsa_educational_sign a b p Gx Gy n d k message) = Ok v ->
             fst (api_ecdsa_educational_sign a b p Gx Gy n d k message) = v) /\
  (forall v, dsa_educational_verify p q g y r s message = Ok v ->
             fst (api_dsa_educational_verify p q g y r s message) = v) /\
  (forall v, result_of (ecdsa_educational_verify a b p Gx Gy n Qx Qy r s message) = Ok v ->
             fst (api_ecdsa_educational_verify a b p Gx Gy n Qx Qy r s message) = v).
Proof.
  pose proof (api_route_status _ (dsa_sign_shape p q g x k message)) as (A1 & A2 & A3).
  pose proof (api_route_status _ (dsa_verify_shape p q g y r s message))
    as (B1 & B2 & B3).
  pose proof (api_route_status _ (ecdsa_sign_shape a b p Gx Gy n d k message))
    as (C1 & C2 & C3).
  pose proof (api_route_status _ (ecdsa_verify_shape a b p Gx Gy n Qx Qy r s message))
    as (D1 & D2 & D3).
  split; [exact A1 |]. split; [exact B1 |]. split; [exact C1 |]. split; [exact D1 |].
  split; [| split; [exact A3 | split; [exact C3 | split; [exact B3 | exact D3]]]].
  intros status [<- | [<- | [<- | [<- | []]]]]; assumption.
Qed.

(* ===================================================================== *)
(** * Further properties: the nonce at infinity, the hash                 *)
(* ===================================================================== *)

(** X15: a nonce that sends [G] to Infinity.  With [G] on the curve
    ([p <> 0], [n <> 0]) and the public key computed, when
    [scalar_multiply(k, G)] returns Infinity (as for [k = 0], or [k] a
    multiple of the order of [G]) ECDSA sign returns the error "Invalid
    nonce: k × G resulted in point at infinity" with the trace of steps 0,
    1 and 2, and no signature. *)
Theorem ecdsa_sign_nonce_at_infinity
    (a b p Gx Gy n d k : Z) (message : string)
    (Q : point) (mult_steps kG_steps : list value) (l1 l2 : list event) :
  p <> 0 -> n <> 0 ->
  on_curve (EllipticCurve.mk a b p) (Some (Gx, Gy)) ->
  EllipticCurve.scalar_multiply (EllipticCurve.mk a b p) d (Some (Gx, Gy)) true []
    = (Ok (Q, mult_steps), l1) ->
  EllipticCurve.scalar_multiply (EllipticCurve.mk a b p) k (Some (Gx, Gy)) true l1
    = (Ok (None, kG_steps), l2) ->
  exists steps,
    ecdsa_educational_sign a b p Gx Gy n d k message [] =
      (Ok (VDict
             [("error", VStr "Invalid nonce: k × G resulted in point at infinity");
              ("steps", VList steps)]),
       l2) /\
    step_indices steps = [Some (VInt 0); Some (VInt 1); Some (VInt 2)] /\
    step_results steps =
      [None; Some (point_value Q); Some (VInt (hash_message message mod n))].
Proof.
  intros Hp Hn HG HQ HkG.
  unfold ecdsa_educational_sign. cbv zeta.
  unfold bindM at 1. unfold lift at 1.
  rewrite (is_on_curve_on a b p Gx Gy Hp HG). cbn [negb]. cbv beta iota.
  unfold bindM at 1. rewrite HQ. cbv beta iota.
  unfold bindM at 1. unfold lift at 1. rewrite mod_ok by assumption. cbv beta iota.
  unfold bindM at 1. rewrite HkG. cbv beta iota.
  eexists. split; [reflexivity |]. split; reflexivity.
Qed.

Lemma ecdsa_sign_nonce_at_infinity_witness :
  exists steps log,
    ecdsa_educational_sign 2 3 97 3 6 5 3 5 "Hello" [] =
      (Ok (VDict
             [("error", VStr "Invalid nonce: k × G resulted in point at infinity");
              ("steps", VList steps)]),
       log).
Proof.
  destruct (EllipticCurve.scalar_multiply (EllipticCurve.mk 2 3 97) 3 (Some (3, 6)) true [])
    as [[[Q ms] | e] l1] eqn:E1; [| vm_compute in E1; discriminate E1].
  destruct (EllipticCurve.scalar_multiply (EllipticCurve.mk 2 3 97) 5 (Some (3, 6)) true l1)
    as [[[[kG |] ks] | e] l2] eqn:E2.
  - exfalso. vm_compute in E1. injection E1 as _ _ <-.
    vm_compute in E2. discriminate E2.
  - destruct (ecdsa_sign_nonce_at_infinity 2 3 97 3 6 5 3 5 "Hello" Q ms ks l1 l2
                ltac:(discriminate) ltac:(discriminate) on_curve_3_6 E1 E2)
      as (steps & H & _).
    exists steps, l2. exact H.
  - exfalso. vm_compute in E1. injection E1 as _ _ <-.
    vm_compute in E2. discriminate E2.
Defined.

Section HashRange.

Lemma add32_range (u v : Z) : 0 <= Sha256.add32 u v < 2 ^ 32.
Proof.
  unfold Sha256.add32, Sha256.w32.
  change 0xFFFFFFFF with (Z.ones 32). rewrite Z.land_ones by lia.
  apply Z.mod_pos_bound. lia.
Qed.

Lemma round_length (st : list Z) (kw : Z * Z) :
  List.length (Sha256.round st kw) = List.length st.
Proof.
  unfold Sha256.round.
  do 9 (destruct st as [| ? st]; try reflexivity).
Qed.

Lemma rounds_length (kws : list (Z * Z)) (st : list Z) :
  List.length (fold_left Sha256.round kws st) = List.length st.
Proof.
  revert st. induction kws as [| kw kws IH]; intro st; [reflexivity |].
  cbn [fold_left]. rewrite IH. apply round_length.
Qed.

Lemma compress_word_list (h block : list Z) :
  word_list h -> word_list (Sha256.compress h block).
Proof.
  intros [Hlen _]. unfold Sha256.compress. split.
  - rewrite length_map, length_combine, rounds_length, Hlen. reflexivity.
  - apply Forall_forall. intros w Hin.
    apply in_map_iff in Hin. destruct Hin as (hs & <- & _).
    apply add32_range.
Qed.

Lemma digest_words_word_list (msg : list Z) : word_list (Sha256.digest_words msg).
Proof.
  unfold Sha256.digest_words.
  generalize (Sha256.chunks (List.length (Sha256.pad msg)) 64 (Sha256.pad msg)).
  assert (H0 : word_list Sha256.H0).
  { split; [reflexivity |].
    repeat (constructor; [vm_compute; split; [discriminate | reflexivity] |]).
    constructor. }
  revert H0. generalize Sha256.H0.
  intros h Hh blocks. revert h Hh.
  induction blocks as [| blk blocks IH]; intros h Hh; [exact Hh |].
  cbn [fold_left]. apply IH. apply compress_word_list. exact Hh.
Qed.

Lemma words_value_range (l : list Z) (acc j : Z) :
  Forall (fun w => 0 <= w < 2 ^ 32) l ->
  0 <= j -> 0 <= acc < 2 ^ (32 * j) ->
  0 <= fold_left (fun acc w => acc * 2 ^ 32 + w) l acc
    < 2 ^ (32 * (j + Z.of_nat (List.length l))).
Proof.
  intro H. revert acc j. induction H as [| w l Hw _ IH]; intros acc j Hj Hacc.
  - cbn [fold_left List.length]. rewrite Z.add_0_r. exact Hacc.
  - cbn [fold_left List.length]. rewrite Nat2Z.inj_succ.
    replace (j + Z.succ (Z.of_nat (List.length l)))
      with ((j + 1) + Z.of_nat (List.length l)) by lia.
    apply IH; [lia |].
    replace (32 * (j + 1)) with (32 * j + 32) by lia.
    rewrite Z.pow_add_r by lia. nia.
Qed.

End HashRange.

(** X16: [hash_message] returns a non-negative integer below [2^256],
    whatever the message. *)
Theorem hash_message_range (message : string) :
  0 <= hash_message message < 2 ^ 256.
Proof.
  unfold hash_message, Sha256.digest.
  destruct (digest_words_word_list (Py.encode message)) as [Hlen Hw].
  pose proof (words_value_range _ 0 0 Hw ltac:(lia) ltac:(simpl; lia)) as H.
  rewrite Hlen in H. exact H.
Qed.
